(** * The hybrid cache-and-sync engine of [src/services/storage.ts]

    A shallow embedding of the storage service (local cache in
    [localStorage], listener registry, fire-and-forget mirroring to the
    spreadsheet API) together with the properties of its documented
    behaviour.

    Conventions of the embedding.
    - JSON data is the inductive type [json]; JavaScript's [undefined] is
      [None] in [option json].  Numbers are restricted to integers.
    - [localStorage] maps a key to the JSON value whose serialisation
      [JSON.stringify] is stored under it; every write of the service goes
      through [JSON.stringify] and every read through [JSON.parse], which
      returns a fresh copy of the value that was serialised.  The one raw
      string item, the API URL, is a field of its own.
    - Listeners are opaque function references, compared by identity; a
      call of a listener is recorded in the effect log and does not re-enter
      the service.
    - [Date.now()] and [Math.random().toString(36)] are inputs of the
      operation that evaluates them.
    - An [async] function is split at its suspension points: the part that
      runs synchronously in the call, and one continuation per awaited
      promise, which takes the value the promise settled with. *)

From Stdlib Require Import ZArith String Ascii List Decimal DecimalString DecimalZ DecimalNat Lia.
From stdpp Require Import base option list strings gmap.

Local Open Scope string_scope.
Set Warnings "-register-all".


(** ** JavaScript values and the built-ins the service uses *)

Module Js.

Inductive json : Type :=
| JNull
| JBool (b : bool)
| JNum (n : Z)
| JStr (s : string)
| JArr (xs : list json)
| JObj (fields : list (string * json)).

(** The own properties of an object, in property order. *)
Definition record : Type := list (string * json).

Inductive exn : Type :=
| TypeError.

Inductive result (A : Type) : Type :=
| Ok (a : A)
| Throw (e : exn).

Arguments Ok {A} a.
Arguments Throw {A} e.

(** [o[k]] on an object. *)
Fixpoint lookup_field (k : string) (fs : record) : option json :=
  match fs with
  | [] => None
  | (k', v) :: rest => if String.eqb k' k then Some v else lookup_field k rest
  end.

(** [o[k] = v], and [{...o, k: v}]: an existing property keeps its place,
    a new one is added last. *)
Fixpoint set_field (k : string) (v : json) (fs : record) : record :=
  match fs with
  | [] => [(k, v)]
  | (k', v') :: rest =>
      if String.eqb k' k then (k, v) :: rest else (k', v') :: set_field k v rest
  end.

(** [x.id] for a value [x] read from a parsed array: a [TypeError] on
    [null], the property on an object, [undefined] on everything else. *)
Definition get_id (x : json) : result (option json) :=
  match x with
  | JNull => Throw TypeError
  | JObj fs => Ok (lookup_field "id" fs)
  | _ => Ok None
  end.

(** Truthiness, as tested by [if (v)], [!v] and [a || b]. *)
Definition truthy (v : option json) : bool :=
  match v with
  | None => false
  | Some JNull => false
  | Some (JBool b) => b
  | Some (JNum n) => negb (Z.eqb n 0)
  | Some (JStr s) => negb (String.eqb s EmptyString)
  | Some (JArr _) => true
  | Some (JObj _) => true
  end.

(** [a === b] where one side was produced by a fresh [JSON.parse]:
    primitives compare by value, arrays and objects by reference and the
    two references are never the same. *)
Definition strict_eq (a b : option json) : bool :=
  match a, b with
  | None, None => true
  | Some JNull, Some JNull => true
  | Some (JBool x), Some (JBool y) => Bool.eqb x y
  | Some (JNum x), Some (JNum y) => Z.eqb x y
  | Some (JStr x), Some (JStr y) => String.eqb x y
  | _, _ => false
  end.

(** [Array.prototype.findIndex] with a callback that may throw; [None] is
    the result [-1]. *)
Fixpoint findIndex (p : json -> result bool) (l : list json) : result (option nat) :=
  match l with
  | [] => Ok None
  | x :: rest =>
      match p x with
      | Throw e => Throw e
      | Ok true => Ok (Some 0)
      | Ok false =>
          match findIndex p rest with
          | Throw e => Throw e
          | Ok r => Ok (S <$> r)
          end
      end
  end.

(** [Array.prototype.filter] with a callback that may throw. *)
Fixpoint filter (p : json -> result bool) (l : list json) : result (list json) :=
  match l with
  | [] => Ok []
  | x :: rest =>
      match p x with
      | Throw e => Throw e
      | Ok b =>
          match filter p rest with
          | Throw e => Throw e
          | Ok r => Ok (if b then x :: r else r)
          end
      end
  end.

(** The receiver of an array method ([findIndex], [push], [filter]): any
    value that is not an array has no such method. *)
Definition as_array (v : json) : result (list json) :=
  match v with
  | JArr l => Ok l
  | _ => Throw TypeError
  end.

(** [[...v]]: arrays and strings are iterable, nothing else in JSON is. *)
Definition spread (v : json) : result (list json) :=
  match v with
  | JArr l => Ok l
  | JStr s => Ok (map (fun c => JStr (String c EmptyString)) (list_ascii_of_string s))
  | _ => Throw TypeError
  end.

(** [String(n)] for an integer. *)
Definition string_of_Z (n : Z) : string := NilEmpty.string_of_int (Z.to_int n).

(** [String(i)] for an array index. *)
Definition string_of_nat (n : nat) : string := NilEmpty.string_of_uint (Nat.to_uint n).

(** [s.substr(start, len)] and, for [0 <= start <= end], [s.substring(start, end)]. *)
Definition substr (start len : nat) (s : string) : string := String.substring start len s.

Definition dquote : ascii := ascii_of_nat 34.
Definition backslash : ascii := ascii_of_nat 92.

Definition hex_digit (n : nat) : ascii :=
  nth n (list_ascii_of_string "0123456789abcdef") "0"%char.

Definition escape_char (c : ascii) : string :=
  let n := nat_of_ascii c in
  if Nat.eqb n 34 then String backslash (String dquote EmptyString)
  else if Nat.eqb n 92 then String backslash (String backslash EmptyString)
  else if Nat.eqb n 8 then "\b"
  else if Nat.eqb n 9 then "\t"
  else if Nat.eqb n 10 then "\n"
  else if Nat.eqb n 12 then "\f"
  else if Nat.eqb n 13 then "\r"
  else if Nat.ltb n 32 then
    "\u00" ++ String (hex_digit (n / 16)) (String (hex_digit (n mod 16)) EmptyString)
  else String c EmptyString.

Fixpoint escape (s : string) : string :=
  match s with
  | EmptyString => EmptyString
  | String c rest => escape_char c ++ escape rest
  end.

Definition quote (s : string) : string :=
  String dquote (escape s ++ String dquote EmptyString).

Fixpoint join_comma (l : list string) : string :=
  match l with
  | [] => EmptyString
  | [x] => x
  | x :: rest => x ++ "," ++ join_comma rest
  end.

(** [JSON.stringify] on JSON data. *)
Fixpoint stringify (v : json) : string :=
  match v with
  | JNull => "null"
  | JBool true => "true"
  | JBool false => "false"
  | JNum n => string_of_Z n
  | JStr s => quote s
  | JArr xs => "[" ++ join_comma (map stringify xs) ++ "]"
  | JObj fs =>
      "{" ++ join_comma (map (fun kv => let '(k, x) := kv in quote k ++ ":" ++ stringify x) fs) ++ "}"
  end.

End Js.

Import Js.

(** ** The service state, its effects and the monad of the embedding *)

(** A listener: a function reference, compared by identity. *)
Definition callback : Type := nat.

Inductive action : Type :=
| Create
| Update
| Delete.

Definition action_name (a : action) : string :=
  match a with
  | Create => "create"
  | Update => "update"
  | Delete => "delete"
  end.

(** The body [{ action, table, data }] of a write request. *)
Definition request_body (a : action) (table : string) (data : json) : json :=
  JObj [("action", JStr (action_name a)); ("table", JStr table); ("data", data)].

(** What the service does to the outside, in program order. *)
Inductive event : Type :=
| EvSetItem (key : string) (value : json)
    (* localStorage.setItem(key, JSON.stringify(value)) *)
| EvCall (cb : callback) (data : json)
    (* cb(data) *)
| EvPost (url : string) (body : json)
    (* fetch(url, { method: 'POST', mode: 'no-cors', body: JSON.stringify(body) }) *)
| EvGet (url : string)
    (* fetch(url) *)
| EvError (msg : string).
    (* console.error(msg, err) *)

Record Engine : Type := mkEngine {
  localStorage : gmap string json;      (* the JSON items of localStorage *)
  apiUrlItem : option string;           (* the item KEYS.API_URL, a raw string *)
  listeners : gmap string (list callback);
  effects : list event
}.

(** State, exceptions, and the effect log inside the state. *)
Definition M (A : Type) : Type := Engine -> result (A * Engine).

Definition ret {A : Type} (a : A) : M A := fun s => Ok (a, s).

Definition bind {A B : Type} (m : M A) (k : A -> M B) : M B :=
  fun s =>
    match m s with
    | Ok (a, s') => k a s'
    | Throw e => Throw e
    end.

Declare Scope engine_scope.
Delimit Scope engine_scope with engine.
Notation "x <- m ;; k" := (bind m (fun x => k))
  (at level 100, m at next level, right associativity) : engine_scope.
Notation "m ;; k" := (bind m (fun _ => k))
  (at level 100, right associativity) : engine_scope.
Local Open Scope engine_scope.

Definition lift {A : Type} (r : result A) : M A :=
  fun s =>
    match r with
    | Ok a => Ok (a, s)
    | Throw e => Throw e
    end.

Definition emit (e : event) : M unit :=
  fun s =>
    Ok (tt, mkEngine (localStorage s) (apiUrlItem s) (listeners s) (effects s ++ [e])).

(** [localStorage.getItem(key)]; [None] is [null]. *)
Definition getItem (key : string) : M (option json) :=
  fun s => Ok (localStorage s !! key, s).

(** [localStorage.setItem(key, JSON.stringify(value))]. *)
Definition setItem (key : string) (value : json) : M unit :=
  fun s =>
    Ok (tt, mkEngine (<[key := value]> (localStorage s)) (apiUrlItem s) (listeners s)
              (effects s ++ [EvSetItem key value])).

(** [listeners[key]]; [None] is [undefined]. *)
Definition getListeners (key : string) : M (option (list callback)) :=
  fun s => Ok (listeners s !! key, s).

(** [listeners[key] = cbs]. *)
Definition setListeners (key : string) (cbs : list callback) : M unit :=
  fun s =>
    Ok (tt, mkEngine (localStorage s) (apiUrlItem s) (<[key := cbs]> (listeners s)) (effects s)).

(** [l.forEach(f)]. *)
Fixpoint forEach {A : Type} (f : A -> M unit) (l : list A) : M unit :=
  match l with
  | [] => ret tt
  | x :: rest => f x ;; forEach f rest
  end.

(** ** [storage.ts] *)

Definition KEYS_USERS : string := "senja_users".
Definition KEYS_STUDENTS : string := "senja_students".
Definition KEYS_MATERIALS : string := "senja_materials".
Definition KEYS_SUBMISSIONS : string := "senja_submissions".
Definition KEYS_SETTINGS : string := "senja_settings".
Definition KEYS_SESSION : string := "senja_session_current".
Definition KEYS_API_URL : string := "senja_spreadsheet_api_url".

Definition DEFAULT_API_URL : string :=
  "https://script.google.com/macros/s/AKfycbzJ2VqHuQvz1XxsmeZTsB-1AFP7qW2k7Fpmlkoah46ObMUP0zHGESTrUYDqMkvwrt3bcA/exec".

(** [item || DEFAULT_API_URL]: an absent or empty item is falsy. *)
Definition api_url_or_default (item : option string) : string :=
  match item with
  | Some u => if String.eqb u EmptyString then DEFAULT_API_URL else u
  | None => DEFAULT_API_URL
  end.

(** [localStorage.getItem(KEYS.API_URL) || DEFAULT_API_URL]. *)
Definition getApiUrl : M string :=
  fun s => Ok (api_url_or_default (apiUrlItem s), s).

(** [!!getApiUrl()]. *)
Definition hasApiUrl : M bool :=
  url <- getApiUrl ;; ret (negb (String.eqb url EmptyString)).

(** The promise an [async] gateway call returns: already resolved, or
    waiting for the transport. *)
Inductive promise (A : Type) : Type :=
| Resolved (v : A)
| Pending.

Arguments Resolved {A} v.
Arguments Pending {A}.

(** [apiRequest], up to [await fetch(...)]. *)
Definition apiRequest (a : action) (table : string) (data : json) : M (promise unit) :=
  url <- getApiUrl ;;
  if String.eqb url EmptyString then ret (Resolved tt)
  else emit (EvPost url (request_body a table data)) ;; ret Pending.

(** [apiRequest], after the request settled: [ok = false] is a rejection,
    caught and logged. *)
Definition apiRequest_settled (ok : bool) : M unit :=
  if ok then ret tt else emit (EvError "Gagal sync ke spreadsheet:").

(** [apiFetch], up to [await fetch(...)]. *)
Definition apiFetch (table : string) : M (promise json) :=
  url <- getApiUrl ;;
  if String.eqb url EmptyString then ret (Resolved JNull)
  else emit (EvGet (url ++ "?action=read&table=" ++ table)) ;; ret Pending.

(** [apiFetch], after [fetch] and [res.json()] settled: [None] when either
    rejected, the parsed body otherwise. *)
Definition apiFetch_settled (response : option json) : M json :=
  match response with
  | Some data => ret data
  | None => emit (EvError "Gagal ambil dari spreadsheet:") ;; ret JNull
  end.

(** The module-level registry, as initialised. *)
Definition initial_listeners : gmap string (list callback) :=
  <[KEYS_USERS := []]> (<[KEYS_STUDENTS := []]> (<[KEYS_MATERIALS := []]>
    (<[KEYS_SUBMISSIONS := []]> (<[KEYS_SETTINGS := []]> ∅)))).

(** The service on a fresh page: nothing stored, nobody listening. *)
Definition initial_engine : Engine := mkEngine ∅ None initial_listeners [].

Definition notify (key : string) (data : json) : M unit :=
  cbs <- getListeners key ;;
  match cbs with
  | Some l => forEach (fun cb => emit (EvCall cb data)) l
  | None => ret tt
  end.

Definition getData (key : string) : M json :=
  str <- getItem key ;;
  match str with
  | Some v => ret v
  | None => ret (JArr [])
  end.

Definition setData (key : string) (data : json) : M unit :=
  setItem key data ;;
  notify key data.

(** [`${table.substring(0,3)}_${Date.now()}_${Math.random().toString(36).substr(2,5)}`];
    [now] is [Date.now()] and [rnd] is [Math.random().toString(36)]. *)
Definition fresh_id (table : string) (now : Z) (rnd : string) : string :=
  substr 0 3 table ++ "_" ++ string_of_Z now ++ "_" ++ substr 2 5 rnd.

(** The callback [i => i.id === id]. *)
Definition id_equals (id : option json) (i : json) : result bool :=
  match get_id i with
  | Ok v => Ok (strict_eq v id)
  | Throw e => Throw e
  end.

(** The callback [i => i.id !== id]. *)
Definition id_differs (id : option json) (i : json) : result bool :=
  match get_id i with
  | Ok v => Ok (negb (strict_eq v id))
  | Throw e => Throw e
  end.

(** [saveItem], up to the [await] inside [apiRequest]; returns the item as
    the caller sees it afterwards (with the id it may have been given). *)
Definition saveItem (key table : string) (item : record) (now : Z) (rnd : string) : M record :=
  list <- getData key ;;
  if truthy (lookup_field "id" item) then
    arr <- lift (as_array list) ;;
    index <- lift (Js.findIndex (id_equals (lookup_field "id" item)) arr) ;;
    match index with
    | Some n =>
        setData key (JArr (<[n := JObj item]> arr)) ;;
        apiRequest Update table (JObj item) ;;
        ret item
    | None =>
        setData key (JArr (arr ++ [JObj item])) ;;
        apiRequest Create table (JObj item) ;;
        ret item
    end
  else
    let item' := set_field "id" (JStr (fresh_id table now rnd)) item in
    arr <- lift (as_array list) ;;
    setData key (JArr (arr ++ [JObj item'])) ;;
    apiRequest Create table (JObj item') ;;
    ret item'.

(** [deleteItem], up to the [await] inside [apiRequest]. *)
Definition deleteItem (key table : string) (id : string) : M unit :=
  list <- getData key ;;
  arr <- lift (as_array list) ;;
  newList <- lift (Js.filter (id_differs (Some (JStr id))) arr) ;;
  setData key (JArr newList) ;;
  apiRequest Delete table (JObj [("id", JStr id)]) ;;
  ret tt.

(** [createSubscriber(key, tableName)(callback)], the synchronous part;
    the result is the promise [.then] was attached to, if any. *)
Definition createSubscriber (key tableName : string) (cb : callback) : M (option (promise json)) :=
  cbs <- getListeners key ;;
  match cbs with
  | None => lift (Throw TypeError)
  | Some l =>
      setListeners key (l ++ [cb]) ;;
      data <- getData key ;;
      emit (EvCall cb data) ;;
      url <- getApiUrl ;;
      if negb (String.eqb url EmptyString) then
        p <- apiFetch tableName ;; ret (Some p)
      else ret None
  end.

(** The [.then] callback of [createSubscriber], on the fetched [cloudData]. *)
Definition createSubscriber_then (key : string) (cb : callback) (cloudData : json) : M unit :=
  match cloudData with
  | JArr (_ :: _) =>
      currentLocal <- getItem key ;;
      if negb (bool_decide (stringify <$> currentLocal = Some (stringify cloudData))) then
        setItem key cloudData ;;
        emit (EvCall cb cloudData)
      else ret tt
  | _ => ret tt
  end.

(** The function a subscription returns:
    [listeners[key] = listeners[key].filter(cb => cb !== callback)]. *)
Definition unsubscribe (key : string) (cb : callback) : M unit :=
  cbs <- getListeners key ;;
  match cbs with
  | None => lift (Throw TypeError)
  | Some l => setListeners key (List.filter (fun x => negb (Nat.eqb x cb)) l)
  end.

Definition subscribeStudents : callback -> M (option (promise json)) :=
  createSubscriber KEYS_STUDENTS "students".

Definition saveStudent (student : record) (now : Z) (rnd : string) : M record :=
  saveItem KEYS_STUDENTS "students" student now rnd.

Definition deleteStudent (id : string) : M unit :=
  deleteItem KEYS_STUDENTS "students" id.

(** The id [bulkImportStudents] gives to the record at index [i]. *)
Definition bulk_id (now : Z) (i : nat) (rnd : string) : string :=
  "std_" ++ string_of_Z now ++ "_" ++ string_of_nat i ++ "_" ++ substr 2 4 rnd.

Definition prepare (newStudents : list record) (now : nat -> Z) (rnd : nat -> string) : list json :=
  imap (fun i s => JObj (set_field "id" (JStr (bulk_id (now i) i (rnd i))) s)) newStudents.

(** [await apiRequest(...)] completed: the request, if one was issued,
    settled with [ok]. *)
Definition await_apiRequest (a : action) (table : string) (data : json) (ok : bool) : M unit :=
  p <- apiRequest a table data ;;
  match p with
  | Pending => apiRequest_settled ok
  | Resolved _ => ret tt
  end.

(** [for (const s of prepared) { await apiRequest('create', 'students', s); }];
    [ok k] tells whether the [k]-th request of the loop succeeded. *)
Fixpoint bulk_loop (prepared : list json) (ok : nat -> bool) (k : nat) : M unit :=
  match prepared with
  | [] => ret tt
  | s :: rest =>
      await_apiRequest Create "students" s (ok k) ;;
      bulk_loop rest ok (S k)
  end.

(** [bulkImportStudents], run to its end with nothing else scheduled in
    between; [now i] and [rnd i] are the clock and the random string read
    for the record at index [i]. *)
Definition bulkImportStudents (newStudents : list record) (now : nat -> Z) (rnd : nat -> string)
    (ok : nat -> bool) : M unit :=
  list <- getData KEYS_STUDENTS ;;
  let prepared := prepare newStudents now rnd in
  old <- lift (spread list) ;;
  setData KEYS_STUDENTS (JArr (old ++ prepared)) ;;
  bulk_loop prepared ok 0.

(** [subscribeSettings], the synchronous part; [DEFAULT_CERT_BG] is a
    constant of [../constants]. *)
Definition subscribeSettings (DEFAULT_CERT_BG : json) (cb : callback) : M (option (promise json)) :=
  cbs <- getListeners KEYS_SETTINGS ;;
  match cbs with
  | None => lift (Throw TypeError)
  | Some l =>
      setListeners KEYS_SETTINGS (l ++ [cb]) ;;
      saved <- getItem KEYS_SETTINGS ;;
      emit (EvCall cb (match saved with
                       | Some parsed => parsed
                       | None => JObj [("certBackground", DEFAULT_CERT_BG)]
                       end)) ;;
      url <- getApiUrl ;;
      if negb (String.eqb url EmptyString) then
        p <- apiFetch "settings" ;; ret (Some p)
      else ret None
  end.

(** The function [subscribeSettings] returns. *)
Definition unsubscribeSettings (cb : callback) : M unit :=
  unsubscribe KEYS_SETTINGS cb.

(** [saveSettings], up to the [await] inside [apiRequest]. *)
Definition saveSettings (settings : record) : M unit :=
  let payload := JObj (set_field "id" (JStr "global_settings") settings) in
  setItem KEYS_SETTINGS payload ;;
  notify KEYS_SETTINGS payload ;;
  apiRequest Update "settings" payload ;;
  ret tt.

(** The promise chain [apiFetch(tableName).then(...)] of a subscription,
    from the moment the fetch settles with [response]. *)
Definition subscription_settled (key : string) (cb : callback) (response : option json) : M unit :=
  cloudData <- apiFetch_settled response ;;
  createSubscriber_then key cb cloudData.

(** ** Scenarios *)

(** One [saveItem] call of a sequence, with the clock and the random string
    it reads. *)
Record save_call : Type := mkCall {
  call_item : record;
  call_now : Z;
  call_rnd : string
}.

(** The id generated for the record of call [c] on [table]. *)
Definition assigned_id (table : string) (c : save_call) : string :=
  fresh_id table (call_now c) (call_rnd c).

(** A sequence of [saveItem] calls on one table, each completed before the
    next starts; the result lists the items as their callers see them. *)
Fixpoint saveItems (key table : string) (cs : list save_call) : M (list record) :=
  match cs with
  | [] => ret []
  | c :: rest =>
      item <- saveItem key table (call_item c) (call_now c) (call_rnd c) ;;
      items <- saveItems key table rest ;;
      ret (item :: items)
  end.

(** The record of the end-to-end scenario. *)
Definition ana : record := [("name", JStr "Ana"); ("grade", JStr "3")].

(** A page whose users table holds two records. *)
Definition two_users : Engine :=
  mkEngine
    {[ KEYS_USERS := JArr [JObj [("id", JStr "u1"); ("name", JStr "Ani")];
                            JObj [("id", JStr "u2"); ("name", JStr "Bud")]] ]}
    None initial_listeners [].

(** ** Notions used in the statements *)

(** The state after the service logged [evs] and changed nothing else. *)
Definition logged (s : Engine) (evs : list event) : Engine :=
  mkEngine (localStorage s) (apiUrlItem s) (listeners s) (effects s ++ evs).

(** The endpoint the gateway uses in state [s]. *)
Definition api_url (s : Engine) : string := api_url_or_default (apiUrlItem s).

(** The locally stored sequence of a table, as [getData] reads it. *)
Definition stored (s : Engine) (key : string) : json :=
  match localStorage s !! key with
  | Some v => v
  | None => JArr []
  end.

(** The registrations of a table's channel. *)
Definition registered (s : Engine) (key : string) : list callback :=
  default [] (listeners s !! key).

(** The calls one notification with [data] makes. *)
Definition calls (cbs : list callback) (data : json) : list event :=
  map (fun cb => EvCall cb data) cbs.

Definition is_record (v : json) : Prop :=
  match v with
  | JObj _ => True
  | _ => False
  end.

(** The record [v] carries the id [id], in the sense of [===]. *)
Definition has_id (id : option json) (v : json) : bool :=
  match v with
  | JObj fs => strict_eq (lookup_field "id" fs) id
  | _ => false
  end.

Definition is_post (e : event) : bool :=
  match e with
  | EvPost _ _ => true
  | _ => false
  end.

Definition is_write (e : event) : bool :=
  match e with
  | EvSetItem _ _ => true
  | _ => false
  end.

Definition is_call_of (cb : callback) (e : event) : bool :=
  match e with
  | EvCall c _ => Nat.eqb c cb
  | _ => false
  end.

(** The fetch of a subscription settled with the non-empty array [data],
    whose serialised form differs from the one cached under [key]. *)
Definition remote_differs (s : Engine) (key : string) (response : option json) (data : json)
  : Prop :=
  response = Some data /\
  (exists x xs, data = JArr (x :: xs)) /\
  stringify <$> localStorage s !! key <> Some (stringify data).

(** The requests of the loop of [bulkImportStudents], with the errors it
    logs: the trace of [bulk_loop] at endpoint [url]. *)
Fixpoint bulk_requests (url : string) (prepared : list json) (ok : nat -> bool) (k : nat)
  : list event :=
  match prepared with
  | [] => []
  | p :: rest =>
      EvPost url (request_body Create "students" p)
        :: (if ok k then [] else [EvError "Gagal sync ke spreadsheet:"])
        ++ bulk_requests url rest ok (S k)
  end.

(** No underscore occurs in the string. *)
Fixpoint underscore_free (s : string) : bool :=
  match s with
  | EmptyString => true
  | String c rest => negb (Ascii.eqb c "_") && underscore_free rest
  end.

(** ** [storage.ts], the remaining operations *)

(** [await apiFetch(table)] completed: the request, if one was issued,
    settled with [response]. *)
Definition await_apiFetch (table : string) (response : option json) : M json :=
  p <- apiFetch table ;;
  match p with
  | Pending => apiFetch_settled response
  | Resolved v => ret v
  end.

(** The [tables] of [syncAllFromCloud]: storage key and remote table. *)
Definition sync_tables : list (string * string) :=
  [(KEYS_USERS, "users"); (KEYS_STUDENTS, "students"); (KEYS_MATERIALS, "materials");
   (KEYS_SUBMISSIONS, "submissions"); (KEYS_SETTINGS, "settings")].

(** [for (const t of tables) { ... }]; [response k] is what the [k]-th
    fetch of the loop settles with. *)
Fixpoint sync_loop (tables : list (string * string)) (response : nat -> option json) (k : nat)
  : M unit :=
  match tables with
  | [] => ret tt
  | (key, table) :: rest =>
      cloudData <- await_apiFetch table (response k) ;;
      match cloudData with
      | JArr (_ :: _) =>
          setItem key cloudData ;;
          notify key cloudData
      | _ => ret tt
      end ;;
      sync_loop rest response (S k)
  end.

(** [syncAllFromCloud], run to its end with nothing else scheduled in
    between. *)
Definition syncAllFromCloud (response : nat -> option json) : M unit :=
  sync_loop sync_tables response 0.



Definition subscribeUsers : callback -> M (option (promise json)) :=
  createSubscriber KEYS_USERS "users".

(** [users.length === 0] on what [getData] returned: the length of an
    array or a string, the property [length] of an object, a [TypeError]
    on [null], [undefined] on a boolean or a number. *)
Definition length_is_zero (v : json) : result bool :=
  match v with
  | JNull => Throw TypeError
  | JArr l => Ok (Nat.eqb (length l) 0)
  | JStr s => Ok (Nat.eqb (String.length s) 0)
  | JObj fs => Ok (strict_eq (lookup_field "length" fs) (Some (JNum 0)))
  | _ => Ok false
  end.

(** [initAdminUser]; [INITIAL_ADMIN] is a constant of [../constants], and
    [now], [rnd] are what [saveItem] would read. *)
Definition initAdminUser (INITIAL_ADMIN : record) (now : Z) (rnd : string) : M unit :=
  users <- getData KEYS_USERS ;;
  empty <- lift (length_is_zero users) ;;
  if empty then
    saveItem KEYS_USERS "users" (set_field "id" (JStr "admin-1") INITIAL_ADMIN) now rnd ;;
    ret tt
  else ret tt.

Definition saveUser (user : record) (now : Z) (rnd : string) : M record :=
  saveItem KEYS_USERS "users" user now rnd.

Definition deleteUser (id : string) : M unit :=
  deleteItem KEYS_USERS "users" id.

Definition subscribeMaterials : callback -> M (option (promise json)) :=
  createSubscriber KEYS_MATERIALS "materials".

Definition saveMaterial (item : record) (now : Z) (rnd : string) : M record :=
  saveItem KEYS_MATERIALS "materials" item now rnd.

Definition deleteMaterial (id : string) : M unit :=
  deleteItem KEYS_MATERIALS "materials" id.

Definition subscribeSubmissions : callback -> M (option (promise json)) :=
  createSubscriber KEYS_SUBMISSIONS "submissions".

Definition saveSubmission (item : record) (now : Z) (rnd : string) : M record :=
  saveItem KEYS_SUBMISSIONS "submissions" item now rnd.

(** [getSession]: the parsed session item, [null] when there is none. *)
Definition getSession : M json :=
  data <- getItem KEYS_SESSION ;;
  match data with
  | Some v => ret v
  | None => ret JNull
  end.

Definition setSession (user : record) : M unit :=
  setItem KEYS_SESSION (JObj user).

(** [localStorage.removeItem(KEYS.SESSION)]. *)
Definition clearSession : M unit :=
  fun s =>
    Ok (tt, mkEngine (delete KEYS_SESSION (localStorage s)) (apiUrlItem s) (listeners s)
              (effects s)).

(** ** [StudentView.tsx] *)

(** [l.filter((x, i) => p(i))], counting positions from [k]. *)
Fixpoint filter_index {A : Type} (p : nat -> bool) (k : nat) (l : list A) : list A :=
  match l with
  | [] => []
  | x :: rest => if p k then x :: filter_index p (S k) rest else filter_index p (S k) rest
  end.

(** The state update of [removeTaskAttachment]:
    [prev => prev.filter((_, i) => i !== index)]. *)
Definition removeTaskAttachment {A : Type} (index : Z) (prev : list A) : list A :=
  filter_index (fun i => negb (Z.eqb (Z.of_nat i) index)) 0 prev.

(** ** Further notions used in the statements *)

(** How many records of a sequence carry the id. *)
Definition carriers (id : option json) (l : list json) : nat :=
  length (List.filter (has_id id) l).

Definition is_get (e : event) : bool :=
  match e with
  | EvGet _ => true
  | _ => false
  end.

Definition is_call (e : event) : bool :=
  match e with
  | EvCall _ _ => true
  | _ => false
  end.

(** The state one turn of the loop of [syncAllFromCloud] leaves, for the
    table stored under [key] and the response [r]. *)
Definition sync_step (key table : string) (r : option json) (s : Engine) : Engine :=
  match r with
  | Some (JArr (x :: xs)) =>
      mkEngine (<[key := JArr (x :: xs)]> (localStorage s)) (apiUrlItem s) (listeners s)
        (effects s ++ EvGet (api_url s ++ "?action=read&table=" ++ table)
           :: EvSetItem key (JArr (x :: xs)) :: calls (registered s key) (JArr (x :: xs)))
  | Some _ => logged s [EvGet (api_url s ++ "?action=read&table=" ++ table)]
  | None =>
      logged s [EvGet (api_url s ++ "?action=read&table=" ++ table);
                EvError "Gagal ambil dari spreadsheet:"]
  end.

Fixpoint sync_run (tables : list (string * string)) (response : nat -> option json) (k : nat)
    (s : Engine) : Engine :=
  match tables with
  | [] => s
  | (key, table) :: rest => sync_run rest response (S k) (sync_step key table (response k) s)
  end.

(** The snapshot [syncAllFromCloud] accepts from a response, if any. *)
Definition accepted (r : option json) : option json :=
  match r with
  | Some (JArr (x :: xs)) => Some (JArr (x :: xs))
  | _ => None
  end.

(** What one turn of the loop of [syncAllFromCloud] does to the outside,
    at endpoint [url] and with [regs] registered for the table. *)
Definition sync_step_events (url : string) (regs : list callback) (key table : string)
    (r : option json) : list event :=
  EvGet (url ++ "?action=read&table=" ++ table)
    :: match r with
       | Some (JArr (x :: xs)) => EvSetItem key (JArr (x :: xs)) :: calls regs (JArr (x :: xs))
       | Some _ => []
       | None => [EvError "Gagal ambil dari spreadsheet:"]
       end.

Fixpoint sync_events (url : string) (regs : string -> list callback)
    (tables : list (string * string)) (response : nat -> option json) (k : nat) : list event :=
  match tables with
  | [] => []
  | (key, table) :: rest =>
      sync_step_events url (regs key) key table (response k)
        ++ sync_events url regs rest response (S k)
  end.

(** * Properties *)

(** ** Strings and generated ids *)

Section Strings.

Lemma underscore_free_uint (d : Decimal.uint) :
  underscore_free (NilEmpty.string_of_uint d) = true.
Proof. induction d; simpl; auto. Qed.

Lemma underscore_free_Z (n : Z) : underscore_free (string_of_Z n) = true.
Proof.
  unfold string_of_Z. destruct (Z.to_int n); simpl; apply underscore_free_uint.
Qed.

Lemma underscore_free_nat (n : nat) : underscore_free (string_of_nat n) = true.
Proof. apply underscore_free_uint. Qed.

Lemma string_of_Z_inj (m n : Z) : string_of_Z m = string_of_Z n -> m = n.
Proof.
  unfold string_of_Z. intros H.
  apply DecimalZ.to_int_inj.
  assert (Hs : Some (Z.to_int m) = Some (Z.to_int n))
    by (rewrite <- !NilEmpty.isi; now rewrite H).
  now injection Hs.
Qed.

Lemma string_of_nat_inj (m n : nat) : string_of_nat m = string_of_nat n -> m = n.
Proof.
  unfold string_of_nat. intros H.
  apply DecimalNat.Unsigned.to_uint_inj.
  assert (Hs : Some (Nat.to_uint m) = Some (Nat.to_uint n))
    by (rewrite <- !NilEmpty.usu; now rewrite H).
  now injection Hs.
Qed.

(** Two strings cut at their first underscore agree part by part. *)
Lemma cut_at_underscore (a a' b b' : string) :
  underscore_free a = true -> underscore_free a' = true ->
  a ++ String "_" b = a' ++ String "_" b' -> a = a' /\ b = b'.
Proof.
  revert a'. induction a as [|c a IH]; intros [|c' a']; simpl.
  - intros _ _ [= ->]. auto.
  - intros _ H [= <- _]. discriminate H.
  - intros H _ [= -> _]. discriminate H.
  - intros H H' [= -> E].
    apply andb_prop in H as [_ H]. apply andb_prop in H' as [_ H'].
    destruct (IH a' H H' E) as [-> ->]. auto.
Qed.

Lemma append_inv_head (p a b : string) : p ++ a = p ++ b -> a = b.
Proof. induction p as [|c p IH]; simpl; [auto | intros [= E]; auto]. Qed.

Lemma prefix_append (p s : string) : String.prefix p (p ++ s) = true.
Proof.
  induction p as [|c p IH]; simpl.
  - now destruct s.
  - destruct (ascii_dec c c); [exact IH | contradiction].
Qed.

Lemma fresh_id_inj (table : string) (t t' : Z) (r r' : string) :
  fresh_id table t r = fresh_id table t' r' ->
  t = t' /\ substr 2 5 r = substr 2 5 r'.
Proof.
  unfold fresh_id. intros H.
  apply append_inv_head in H. simpl in H. injection H as H.
  apply cut_at_underscore in H as [Ht Hr]; auto using underscore_free_Z.
  split; [now apply string_of_Z_inj | exact Hr].
Qed.

Lemma bulk_id_inj (t t' : Z) (i j : nat) (r r' : string) :
  bulk_id t i r = bulk_id t' j r' -> i = j.
Proof.
  unfold bulk_id. intros H.
  simpl in H. injection H as H.
  apply cut_at_underscore in H as [_ H]; auto using underscore_free_Z.
  apply cut_at_underscore in H as [H _]; auto using underscore_free_nat.
  now apply string_of_nat_inj.
Qed.

Lemma fresh_id_truthy (table : string) (t : Z) (r : string) :
  truthy (Some (JStr (fresh_id table t r))) = true.
Proof.
  unfold fresh_id. simpl.
  destruct (substr 0 3 table) as [|c p]; reflexivity.
Qed.

End Strings.

(** ** How the primitives run *)

Section Runs.

Lemma api_url_or_default_nonempty (item : option string) :
  String.eqb (api_url_or_default item) EmptyString = false.
Proof.
  unfold api_url_or_default.
  destruct item as [u|]; [|reflexivity].
  destruct (String.eqb u EmptyString) eqn:E; [reflexivity | exact E].
Qed.

Lemma api_url_nonempty (s : Engine) : String.eqb (api_url s) EmptyString = false.
Proof. apply api_url_or_default_nonempty. Qed.

Lemma logged_nil (s : Engine) : logged s [] = s.
Proof. destruct s. unfold logged. simpl. now rewrite app_nil_r. Qed.

Lemma logged_logged (s : Engine) (a b : list event) :
  logged (logged s a) b = logged s (a ++ b).
Proof. unfold logged. simpl. now rewrite <- app_assoc. Qed.

Lemma apiRequest_run (a : action) (table : string) (data : json) (s : Engine) :
  apiRequest a table data s
  = Ok (Pending, logged s [EvPost (api_url s) (request_body a table data)]).
Proof.
  unfold apiRequest, bind, getApiUrl. fold (api_url s).
  now rewrite api_url_nonempty.
Qed.

Lemma apiFetch_run (table : string) (s : Engine) :
  apiFetch table s
  = Ok (Pending, logged s [EvGet (api_url s ++ "?action=read&table=" ++ table)]).
Proof.
  unfold apiFetch, bind, getApiUrl. fold (api_url s).
  now rewrite api_url_nonempty.
Qed.

Lemma forEach_call_run (data : json) (cbs : list callback) (s : Engine) :
  forEach (fun cb => emit (EvCall cb data)) cbs s = Ok (tt, logged s (calls cbs data)).
Proof.
  revert s. induction cbs as [|cb cbs IH]; intros s; simpl.
  - unfold ret. now rewrite logged_nil.
  - unfold bind, emit. rewrite IH. unfold logged. simpl.
    now rewrite <- app_assoc.
Qed.

Lemma notify_run (key : string) (data : json) (s : Engine) :
  notify key data s = Ok (tt, logged s (calls (registered s key) data)).
Proof.
  unfold notify, bind, getListeners, registered.
  destruct (listeners s !! key) as [l|]; simpl.
  - apply forEach_call_run.
  - unfold ret. now rewrite logged_nil.
Qed.

Lemma getData_run (key : string) (s : Engine) : getData key s = Ok (stored s key, s).
Proof.
  unfold getData, bind, getItem, stored.
  now destruct (localStorage s !! key).
Qed.

Lemma setData_run (key : string) (data : json) (s : Engine) :
  setData key data s
  = Ok (tt, mkEngine (<[key := data]> (localStorage s)) (apiUrlItem s) (listeners s)
              (effects s ++ EvSetItem key data :: calls (registered s key) data)).
Proof.
  unfold setData, bind, setItem. rewrite notify_run.
  unfold logged, registered. simpl. now rewrite <- app_assoc.
Qed.

Lemma stored_insert (ls : gmap string json) (u : option string)
    (li : gmap string (list callback)) (ev : list event) (key : string) (v : json) :
  stored (mkEngine (<[key := v]> ls) u li ev) key = v.
Proof. unfold stored. simpl. now rewrite lookup_insert_eq. Qed.

End Runs.

(** ** Remote gateway *)

Section Gateway.

(** C5, counterexample.  On a fresh page no API URL is stored, yet a write
    request is not a no-op: it posts to the built-in default endpoint and
    is left pending on the network; a read request likewise issues a GET. *)
Lemma gateway_active_without_stored_url :
  apiUrlItem initial_engine = None /\
  apiRequest Create "students" (JObj []) initial_engine
  = Ok (Pending,
        logged initial_engine
          [EvPost DEFAULT_API_URL (request_body Create "students" (JObj []))]) /\
  apiRequest Create "students" (JObj []) initial_engine <> Ok (Resolved tt, initial_engine) /\
  apiFetch "students" initial_engine
  = Ok (Pending,
        logged initial_engine [EvGet (DEFAULT_API_URL ++ "?action=read&table=students")]) /\
  apiFetch "students" initial_engine <> Ok (Resolved JNull, initial_engine).
Proof.
  split; [reflexivity|].
  rewrite apiRequest_run, apiFetch_run.
  repeat split; try reflexivity; discriminate.
Qed.

(** C5, amended.  When no API URL is stored, or the stored one is empty,
    the gateway falls back to the built-in default endpoint: [apiRequest]
    issues one POST and [apiFetch] one GET to it, both left pending on the
    network, and [hasApiUrl] answers true.  The early-return branch of the
    gateway is never taken: in every state, whatever is stored, both calls
    issue their request to a non-empty URL. *)
Theorem gateway_falls_back_to_default (s : Engine) (a : action) (table : string) (data : json) :
  apiUrlItem s = None \/ apiUrlItem s = Some EmptyString ->
  getApiUrl s = Ok (DEFAULT_API_URL, s) /\
  hasApiUrl s = Ok (true, s) /\
  apiRequest a table data s
  = Ok (Pending, logged s [EvPost DEFAULT_API_URL (request_body a table data)]) /\
  apiFetch table s
  = Ok (Pending, logged s [EvGet (DEFAULT_API_URL ++ "?action=read&table=" ++ table)]) /\
  forall (s' : Engine) (a' : action) (table' : string) (data' : json),
    api_url s' <> EmptyString /\
    getApiUrl s' = Ok (api_url s', s') /\
    hasApiUrl s' = Ok (true, s') /\
    apiRequest a' table' data' s'
    = Ok (Pending, logged s' [EvPost (api_url s') (request_body a' table' data')]) /\
    apiRequest a' table' data' s' <> Ok (Resolved tt, s') /\
    apiFetch table' s'
    = Ok (Pending, logged s' [EvGet (api_url s' ++ "?action=read&table=" ++ table')]) /\
    apiFetch table' s' <> Ok (Resolved JNull, s').
Proof.
  intros H.
  assert (Hu : api_url s = DEFAULT_API_URL).
  { unfold api_url. destruct H as [H|H]; now rewrite H. }
  assert (Hhas : forall s0, hasApiUrl s0 = Ok (true, s0)).
  { intros s0. unfold hasApiUrl, bind, getApiUrl.
    now rewrite api_url_or_default_nonempty. }
  split; [unfold getApiUrl; fold (api_url s); now rewrite Hu|].
  split; [apply Hhas|].
  split; [rewrite apiRequest_run, Hu; reflexivity|].
  split; [rewrite apiFetch_run, Hu; reflexivity|].
  intros s' a' table' data'.
  split.
  { intros E. pose proof (api_url_nonempty s') as Hn. rewrite E in Hn. discriminate Hn. }
  split; [reflexivity|].
  split; [apply Hhas|].
  rewrite apiRequest_run, apiFetch_run.
  repeat split; try reflexivity; discriminate.
Qed.

Lemma gateway_falls_back_to_default_witness :
  (apiUrlItem initial_engine = None \/ apiUrlItem initial_engine = Some EmptyString) /\
  getApiUrl initial_engine = Ok (DEFAULT_API_URL, initial_engine).
Proof.
  split; [left; reflexivity|].
  destruct (gateway_falls_back_to_default initial_engine Delete "users" JNull) as [H _].
  - left. reflexivity.
  - exact H.
Defined.

End Gateway.

(** ** Settings singleton *)

Section Settings.

Lemma lookup_set_field_eq (k : string) (v : json) (fs : record) :
  lookup_field k (set_field k v fs) = Some v.
Proof.
  induction fs as [|[k' v'] fs IH]; simpl.
  - now rewrite String.eqb_refl.
  - destruct (String.eqb k' k) eqn:E; simpl.
    + now rewrite String.eqb_refl.
    + now rewrite E.
Qed.

Lemma lookup_set_field_ne (k k' : string) (v : json) (fs : record) :
  k' <> k -> lookup_field k' (set_field k v fs) = lookup_field k' fs.
Proof.
  intros Hne. induction fs as [|[k0 v0] fs IH]; simpl.
  - destruct (String.eqb_spec k k'); congruence.
  - destruct (String.eqb_spec k0 k) as [->|Hk]; simpl.
    + destruct (String.eqb_spec k k'); congruence.
    + destruct (String.eqb_spec k0 k'); congruence.
Qed.

Lemma saveSettings_run (settings : record) (s : Engine) :
  let payload := JObj (set_field "id" (JStr "global_settings") settings) in
  saveSettings settings s
  = Ok (tt, mkEngine (<[KEYS_SETTINGS := payload]> (localStorage s)) (apiUrlItem s) (listeners s)
              (effects s ++ EvSetItem KEYS_SETTINGS payload
                 :: calls (registered s KEYS_SETTINGS) payload
                 ++ [EvPost (api_url s) (request_body Update "settings" payload)])).
Proof.
  intros payload. unfold saveSettings. fold payload.
  unfold bind at 1. unfold setItem.
  unfold bind at 1. rewrite notify_run.
  unfold bind at 1. rewrite apiRequest_run.
  unfold ret, logged, registered, api_url. simpl.
  do 2 f_equal. f_equal. rewrite <- !app_assoc. reflexivity.
Qed.

Lemma forEach_app {A : Type} (f : A -> M unit) (l1 l2 : list A) (s : Engine) :
  forEach f (l1 ++ l2) s = (forEach f l1 ;; forEach f l2)%engine s.
Proof.
  revert s. induction l1 as [|x l1 IH]; intros s; simpl.
  - reflexivity.
  - unfold bind. destruct (f x s) as [[[] s']|e]; [apply IH | reflexivity].
Qed.

Lemma forEach_saveSettings_total (l : list record) (s : Engine) :
  exists s', forEach saveSettings l s = Ok (tt, s').
Proof.
  revert s. induction l as [|p l IH]; intros s; simpl.
  - now exists s.
  - unfold bind. rewrite saveSettings_run. apply IH.
Qed.

(** C4.  [saveSettings] forces the id of what it persists, announces and
    forwards to the constant ['global_settings'] and keeps every other
    field of the payload; after any sequence of calls the settings item is
    the single record made from the last payload. *)
Theorem saveSettings_singleton (earlier : list record) (last : record) (s : Engine) :
  let payload := set_field "id" (JStr "global_settings") last in
  lookup_field "id" payload = Some (JStr "global_settings") /\
  (forall k, k <> "id" -> lookup_field k payload = lookup_field k last) /\
  saveSettings last s
  = Ok (tt, mkEngine (<[KEYS_SETTINGS := JObj payload]> (localStorage s))
              (apiUrlItem s) (listeners s)
              (effects s ++ EvSetItem KEYS_SETTINGS (JObj payload)
                 :: calls (registered s KEYS_SETTINGS) (JObj payload)
                 ++ [EvPost (api_url s) (request_body Update "settings" (JObj payload))])) /\
  exists s',
    forEach saveSettings (earlier ++ [last]) s = Ok (tt, s') /\
    localStorage s' !! KEYS_SETTINGS = Some (JObj payload).
Proof.
  intros payload. split; [apply lookup_set_field_eq|].
  split; [intros k Hk; now apply lookup_set_field_ne|].
  split; [apply saveSettings_run|].
  destruct (forEach_saveSettings_total earlier s) as [s1 H1].
  eexists. rewrite forEach_app. unfold bind at 1. rewrite H1. simpl.
  unfold bind at 1. rewrite saveSettings_run. unfold ret.
  split; [reflexivity|]. simpl. apply lookup_insert_eq.
Qed.

End Settings.

(** ** Saving and deleting records of a table *)

Section Tables.

Lemma id_equals_record (id : option json) (x : json) :
  is_record x -> id_equals id x = Ok (has_id id x).
Proof. destruct x; simpl; intros H; try contradiction. reflexivity. Qed.

Lemma id_differs_record (id : option json) (x : json) :
  is_record x -> id_differs id x = Ok (negb (has_id id x)).
Proof. destruct x; simpl; intros H; try contradiction. reflexivity. Qed.

(** On records, [findIndex] returns the first position carrying the id. *)
Lemma findIndex_first (id : option json) (l : list json) :
  Forall is_record l ->
  match Js.findIndex (id_equals id) l with
  | Ok (Some n) =>
      (exists x, l !! n = Some x /\ has_id id x = true) /\
      (forall m y, m < n -> l !! m = Some y -> has_id id y = false)
  | Ok None => forall m y, l !! m = Some y -> has_id id y = false
  | Throw _ => False
  end.
Proof.
  induction 1 as [|x l Hx Hl IH]; simpl.
  - intros m y H. destruct m; discriminate H.
  - rewrite (id_equals_record id x Hx).
    destruct (has_id id x) eqn:Ex.
    + split; [exists x; auto | intros m y Hm; lia].
    + destruct (Js.findIndex (id_equals id) l) as [[n|]|e]; simpl; [| |exact IH].
      * destruct IH as [[y [Hy Hid]] Hbefore]. split; [exists y; auto|].
        intros [|m] z Hm Hz; simpl in Hz.
        -- now injection Hz as <-.
        -- apply (Hbefore m z); [lia | exact Hz].
      * intros [|m] z Hz; simpl in Hz.
        -- now injection Hz as <-.
        -- now apply (IH m z).
Qed.

(** On records, [filter] keeps exactly the records not carrying the id. *)
Lemma filter_records (id : option json) (l : list json) :
  Forall is_record l ->
  Js.filter (id_differs id) l = Ok (List.filter (fun x => negb (has_id id x)) l).
Proof.
  induction 1 as [|x l Hx Hl IH]; simpl; [reflexivity|].
  rewrite (id_differs_record id x Hx), IH. now destruct (has_id id x).
Qed.

Lemma filter_keeps_records (f : json -> bool) (l : list json) :
  Forall is_record l -> Forall is_record (List.filter f l).
Proof.
  induction 1 as [|x l Hx Hl IH]; simpl; [constructor|].
  destruct (f x); [constructor|]; assumption.
Qed.

Lemma filter_all (f : json -> bool) (l : list json) :
  (forall x, In x l -> f x = true) -> List.filter f l = l.
Proof.
  induction l as [|x l IH]; simpl; intros H; [reflexivity|].
  rewrite (H x) by auto. f_equal. apply IH. auto.
Qed.

Lemma filter_twice (f : json -> bool) (l : list json) :
  List.filter f (List.filter f l) = List.filter f l.
Proof.
  apply filter_all. intros x Hx. now apply List.filter_In in Hx.
Qed.

Lemma saveItem_update_run (key table : string) (item : record) (now : Z) (rnd : string)
    (s : Engine) (l : list json) (n : nat) :
  stored s key = JArr l ->
  truthy (lookup_field "id" item) = true ->
  Js.findIndex (id_equals (lookup_field "id" item)) l = Ok (Some n) ->
  saveItem key table item now rnd s
  = Ok (item,
        mkEngine (<[key := JArr (<[n := JObj item]> l)]> (localStorage s))
          (apiUrlItem s) (listeners s)
          ((effects s ++ EvSetItem key (JArr (<[n := JObj item]> l))
              :: calls (registered s key) (JArr (<[n := JObj item]> l)))
             ++ [EvPost (api_url s) (request_body Update table (JObj item))])).
Proof.
  intros Hst Hid Efi.
  unfold saveItem. unfold bind at 1. rewrite getData_run, Hid, Hst.
  unfold bind at 1. simpl. unfold bind at 1. unfold lift at 1. rewrite Efi.
  unfold bind at 1. rewrite setData_run.
  unfold bind at 1. rewrite apiRequest_run. unfold ret. reflexivity.
Qed.

Lemma saveItem_fresh_run (key table : string) (item : record) (now : Z) (rnd : string)
    (s : Engine) (l : list json) :
  stored s key = JArr l ->
  truthy (lookup_field "id" item) = false ->
  let item' := set_field "id" (JStr (fresh_id table now rnd)) item in
  saveItem key table item now rnd s
  = Ok (item',
        mkEngine (<[key := JArr (l ++ [JObj item'])]> (localStorage s))
          (apiUrlItem s) (listeners s)
          ((effects s ++ EvSetItem key (JArr (l ++ [JObj item']))
              :: calls (registered s key) (JArr (l ++ [JObj item'])))
             ++ [EvPost (api_url s) (request_body Create table (JObj item'))])).
Proof.
  intros Hst Hid item'.
  unfold saveItem. unfold bind at 1. rewrite getData_run, Hid, Hst. fold item'.
  unfold bind at 1. simpl.
  unfold bind at 1. rewrite setData_run.
  unfold bind at 1. rewrite apiRequest_run. unfold ret. reflexivity.
Qed.

(** C1.  Saving a record whose id is present (truthy, as [saveItem] tests
    it) and carried by a record of the stored sequence replaces the entry
    at the matched position, the first one carrying that id and the only
    one when ids are unique: same length, the new record there, every
    other position unchanged; the write is announced and mirrored as an
    update. *)
Theorem saveItem_replaces_in_place (key table : string) (item : record) (now : Z) (rnd : string)
    (s : Engine) (l : list json) (j : nat) (r : json) :
  stored s key = JArr l ->
  Forall is_record l ->
  truthy (lookup_field "id" item) = true ->
  l !! j = Some r ->
  has_id (lookup_field "id" item) r = true ->
  exists (n : nat) (l' : list json) (s' : Engine),
    saveItem key table item now rnd s = Ok (item, s') /\
    stored s' key = JArr l' /\
    (exists r0, l !! n = Some r0 /\ has_id (lookup_field "id" item) r0 = true) /\
    (forall m y, m < n -> l !! m = Some y -> has_id (lookup_field "id" item) y = false) /\
    ((forall m y, m <> j -> l !! m = Some y -> has_id (lookup_field "id" item) y = false) -> n = j) /\
    length l' = length l /\
    l' !! n = Some (JObj item) /\
    (forall m, m <> n -> l' !! m = l !! m) /\
    effects s'
    = (effects s ++ EvSetItem key (JArr l') :: calls (registered s key) (JArr l')
         ++ [EvPost (api_url s) (request_body Update table (JObj item))])%list.
Proof.
  intros Hst Hrec Hid Hj Hr.
  pose proof (findIndex_first (lookup_field "id" item) l Hrec) as Hfi.
  destruct (Js.findIndex (id_equals (lookup_field "id" item)) l) as [[n|]|e] eqn:Efi;
    [| rewrite (Hfi j r Hj) in Hr; discriminate Hr | contradiction].
  destruct Hfi as [[r0 [Hn Hr0]] Hbefore].
  exists n, (<[n := JObj item]> l).
  eexists. split; [exact (saveItem_update_run key table item now rnd s l n Hst Hid Efi)|].
  split; [apply stored_insert|].
  split; [exists r0; auto|].
  split; [exact Hbefore|].
  split.
  { intros Huniq. destruct (Nat.eq_dec n j) as [|Hne]; [assumption|].
    rewrite (Huniq n r0 Hne Hn) in Hr0. discriminate Hr0. }
  split; [apply length_insert|].
  split; [apply list_lookup_insert_eq; eapply lookup_lt_Some; eauto|].
  split; [intros m Hm; apply list_lookup_insert_ne; auto|].
  simpl. rewrite <- app_assoc. reflexivity.
Qed.

Lemma saveItem_replaces_in_place_witness :
  exists (n : nat) (l' : list json) (s' : Engine),
    saveItem KEYS_USERS "users" [("id", JStr "u2"); ("name", JStr "Budi")] 0 "0.abc"
      two_users = Ok ([("id", JStr "u2"); ("name", JStr "Budi")], s') /\
    stored s' KEYS_USERS = JArr l' /\
    l' !! n = Some (JObj [("id", JStr "u2"); ("name", JStr "Budi")]).
Proof.
  destruct (saveItem_replaces_in_place KEYS_USERS "users"
              [("id", JStr "u2"); ("name", JStr "Budi")] 0 "0.abc" two_users
              [JObj [("id", JStr "u1"); ("name", JStr "Ani")];
               JObj [("id", JStr "u2"); ("name", JStr "Bud")]]
              1 (JObj [("id", JStr "u2"); ("name", JStr "Bud")]))
    as (n & l' & s' & Hrun & Hst & _ & _ & _ & _ & Hn & _).
  - reflexivity.
  - repeat constructor.
  - reflexivity.
  - reflexivity.
  - reflexivity.
  - exists n, l', s'. auto.
Defined.

(** C3.  Deleting an id keeps, in their order, exactly the records that do
    not carry it: the one record carrying it is removed when ids are
    unique, nothing changes and nothing is raised when no record carries
    it, and a second delete of the same id leaves the stored sequence as
    the first one made it. *)
Theorem deleteItem_removes (key table id : string) (s : Engine) (l : list json) :
  stored s key = JArr l ->
  Forall is_record l ->
  exists (s' : Engine),
    let kept := List.filter (fun x => negb (has_id (Some (JStr id)) x)) l in
    deleteItem key table id s = Ok (tt, s') /\
    stored s' key = JArr kept /\
    (forall l1 r l2,
        l = (l1 ++ r :: l2)%list ->
        has_id (Some (JStr id)) r = true ->
        (forall x, In x (l1 ++ l2)%list -> has_id (Some (JStr id)) x = false) ->
        kept = (l1 ++ l2)%list) /\
    ((forall x, In x l -> has_id (Some (JStr id)) x = false) -> kept = l) /\
    exists (s'' : Engine),
      deleteItem key table id s' = Ok (tt, s'') /\
      stored s'' key = stored s' key.
Proof.
  intros Hst Hrec.
  assert (Hrun : forall s0 l0, stored s0 key = JArr l0 -> Forall is_record l0 ->
            exists s1, deleteItem key table id s0 = Ok (tt, s1) /\
              stored s1 key
              = JArr (List.filter (fun x => negb (has_id (Some (JStr id)) x)) l0)).
  { intros s0 l0 H0 Hr0. eexists. split.
    - unfold deleteItem. unfold bind at 1. rewrite getData_run, H0.
      unfold bind at 1. simpl. unfold bind at 1. unfold lift at 1.
      rewrite (filter_records _ _ Hr0).
      unfold bind at 1. rewrite setData_run.
      unfold bind at 1. rewrite apiRequest_run. unfold ret. reflexivity.
    - apply stored_insert. }
  destruct (Hrun s l Hst Hrec) as [s' [Hdel Hst']].
  exists s'. simpl. split; [exact Hdel|]. split; [exact Hst'|].
  split; [|split].
  - intros l1 r l2 -> Hr Hothers.
    rewrite List.filter_app. simpl. rewrite Hr. simpl.
    rewrite <- List.filter_app. apply filter_all.
    intros x Hx. now rewrite (Hothers x Hx).
  - intros Hnone. apply filter_all. intros x Hx. now rewrite (Hnone x Hx).
  - destruct (Hrun s' _ Hst' (filter_keeps_records _ _ Hrec)) as [s'' [Hdel' Hst'']].
    exists s''. split; [exact Hdel'|].
    rewrite Hst'', Hst'. now rewrite filter_twice.
Qed.

Lemma deleteItem_removes_witness :
  exists (s' : Engine),
    deleteItem KEYS_USERS "users" "u1" two_users = Ok (tt, s') /\
    stored s' KEYS_USERS = JArr [JObj [("id", JStr "u2"); ("name", JStr "Bud")]].
Proof.
  destruct (deleteItem_removes KEYS_USERS "users" "u1" two_users
              [JObj [("id", JStr "u1"); ("name", JStr "Ani")];
               JObj [("id", JStr "u2"); ("name", JStr "Bud")]])
    as (s' & Hrun & Hst & _).
  - reflexivity.
  - repeat constructor.
  - exists s'. auto.
Defined.

End Tables.

(** ** Generated ids *)

Section GeneratedIds.

(** C6, counterexample.  On a fresh page, saving Ana's record without an id
    leaves one record in the cache, and its generated id starts with the
    first three characters of the table name, [stu_]; it does not start
    with [std_]. *)
Lemma ana_id_does_not_start_with_std :
  exists (s' : Engine),
    saveStudent ana 1700000000000 "0.k3j5h2m1" initial_engine
    = Ok ([("name", JStr "Ana"); ("grade", JStr "3");
           ("id", JStr "stu_1700000000000_k3j5h")], s') /\
    stored s' KEYS_STUDENTS
    = JArr [JObj [("name", JStr "Ana"); ("grade", JStr "3");
                  ("id", JStr "stu_1700000000000_k3j5h")]] /\
    String.prefix "std_" "stu_1700000000000_k3j5h" = false.
Proof.
  eexists. split; [|split].
  - unfold saveStudent.
    rewrite (saveItem_fresh_run KEYS_STUDENTS "students" ana _ _ initial_engine []);
      reflexivity.
  - reflexivity.
  - reflexivity.
Qed.

(** C6, amended.  Saving Ana's record without an id to an empty students
    table leaves exactly one record in the cache, whose generated id starts
    with [stu_]; a later save of a record carrying that id replaces the
    entry in place, as an update, and the cache still holds one record. *)
Theorem saveStudent_ana_then_update (now now' : Z) (rnd rnd' : string) (again : record)
    (s : Engine) :
  stored s KEYS_STUDENTS = JArr [] ->
  lookup_field "id" again = Some (JStr (fresh_id "students" now rnd)) ->
  exists (s1 s2 : Engine),
    let saved := [("name", JStr "Ana"); ("grade", JStr "3");
                  ("id", JStr (fresh_id "students" now rnd))] in
    saveStudent ana now rnd s = Ok (saved, s1) /\
    stored s1 KEYS_STUDENTS = JArr [JObj saved] /\
    String.prefix "stu_" (fresh_id "students" now rnd) = true /\
    saveStudent again now' rnd' s1 = Ok (again, s2) /\
    stored s2 KEYS_STUDENTS = JArr [JObj again] /\
    effects s2
    = (effects s1 ++ EvSetItem KEYS_STUDENTS (JArr [JObj again])
         :: calls (registered s1 KEYS_STUDENTS) (JArr [JObj again])
         ++ [EvPost (api_url s1) (request_body Update "students" (JObj again))])%list.
Proof.
  intros Hst Hagain.
  eexists. eexists. cbv zeta.
  split.
  { unfold saveStudent.
    rewrite (saveItem_fresh_run KEYS_STUDENTS "students" ana now rnd s [] Hst);
      reflexivity. }
  split; [apply stored_insert|].
  split; [apply (prefix_append "stu_")|].
  split.
  { unfold saveStudent.
    apply (saveItem_update_run KEYS_STUDENTS "students" again now' rnd' _
             [JObj [("name", JStr "Ana"); ("grade", JStr "3");
                    ("id", JStr (fresh_id "students" now rnd))]] 0).
    - apply stored_insert.
    - rewrite Hagain. apply fresh_id_truthy.
    - simpl. rewrite Hagain. simpl. now rewrite String.eqb_refl. }
  split; [apply stored_insert|].
  simpl. rewrite <- !app_assoc. reflexivity.
Qed.

Lemma saveStudent_ana_then_update_witness :
  exists (s1 s2 : Engine),
    saveStudent ana 1700000000000 "0.k3j5h2m1" initial_engine
    = Ok ([("name", JStr "Ana"); ("grade", JStr "3");
           ("id", JStr "stu_1700000000000_k3j5h")], s1) /\
    stored s2 KEYS_STUDENTS
    = JArr [JObj [("name", JStr "Ana"); ("grade", JStr "4");
                  ("id", JStr "stu_1700000000000_k3j5h")]].
Proof.
  destruct (saveStudent_ana_then_update 1700000000000 1700000000500
              "0.k3j5h2m1" "0.zzzzzzzz"
              [("name", JStr "Ana"); ("grade", JStr "4");
               ("id", JStr "stu_1700000000000_k3j5h")] initial_engine)
    as (s1 & s2 & H1 & _ & _ & _ & H2 & _).
  - reflexivity.
  - reflexivity.
  - exists s1, s2. split; [exact H1 | exact H2].
Defined.

(** C7, counterexample.  Two saves of id-less records that read the same
    clock value and draw the same random string are given the same id: the
    students table then holds two records carrying one id. *)
Lemma same_clock_same_random_same_id :
  exists (s' : Engine),
    saveItems KEYS_STUDENTS "students"
      [mkCall [("name", JStr "A")] 5 "0.abcdefg"; mkCall [("name", JStr "B")] 5 "0.abcdefg"]
      initial_engine
    = Ok ([[("name", JStr "A"); ("id", JStr "stu_5_abcde")];
           [("name", JStr "B"); ("id", JStr "stu_5_abcde")]], s') /\
    stored s' KEYS_STUDENTS
    = JArr [JObj [("name", JStr "A"); ("id", JStr "stu_5_abcde")];
            JObj [("name", JStr "B"); ("id", JStr "stu_5_abcde")]] /\
    ~ NoDup ["stu_5_abcde"; "stu_5_abcde"].
Proof.
  eexists. split; [|split].
  - vm_compute. reflexivity.
  - reflexivity.
  - intros H. inversion H as [|x l Hin _]. apply Hin. now left.
Qed.

Lemma NoDup_map_reflect {A B C : Type} (f : A -> B) (g : A -> C) (l : list A) :
  (forall x y, g x = g y -> f x = f y) ->
  NoDup (map f l) -> NoDup (map g l).
Proof.
  intros Hfg. induction l as [|x l IH]; simpl; intros H.
  - constructor.
  - inversion H as [|? ? Hin Hnd]; subst. constructor; [|now apply IH].
    intros Hg. apply Hin.
    apply list_elem_of_In, List.in_map_iff in Hg as [y [Hy Hyl]].
    apply list_elem_of_In, List.in_map_iff. exists y. split; [now apply Hfg | exact Hyl].
Qed.

(** C7, amended.  In a sequence of saves of id-less records on one table,
    every record is appended carrying the generated id
    [<first three characters of the table>_<clock>_<random characters>];
    the assigned ids are pairwise distinct provided no two calls read the
    same clock value together with the same random characters. *)
Theorem saveItems_fresh_ids (key table : string) (cs : list save_call) (s : Engine)
    (l : list json) :
  stored s key = JArr l ->
  Forall (fun c => truthy (lookup_field "id" (call_item c)) = false) cs ->
  exists (s' : Engine),
    let saved := map (fun c => set_field "id" (JStr (assigned_id table c)) (call_item c)) cs in
    saveItems key table cs s = Ok (saved, s') /\
    stored s' key = JArr (l ++ map JObj saved) /\
    map (lookup_field "id") saved = map (fun c => Some (JStr (assigned_id table c))) cs /\
    (NoDup (map (fun c => (call_now c, substr 2 5 (call_rnd c))) cs) ->
     NoDup (map (fun c => assigned_id table c) cs)).
Proof.
  intros Hst Hcs. cbv zeta.
  assert (Hrun : exists s',
             saveItems key table cs s
             = Ok (map (fun c => set_field "id" (JStr (assigned_id table c)) (call_item c)) cs, s') /\
             stored s' key
             = JArr (l ++ map JObj
                       (map (fun c => set_field "id" (JStr (assigned_id table c)) (call_item c)) cs))).
  { revert s l Hst. induction Hcs as [|c cs Hc Hcs IH]; intros s l Hst; simpl.
    - exists s. unfold ret. now rewrite app_nil_r.
    - unfold bind at 1. rewrite (saveItem_fresh_run key table _ _ _ s l Hst Hc).
      unfold bind at 1.
      match goal with |- context [saveItems key table cs ?s1] =>
        destruct (IH s1 _ (stored_insert _ _ _ _ _ _)) as [s' [Hrun Hst']] end.
      exists s'. rewrite Hrun. unfold ret.
      split; [reflexivity|]. rewrite Hst', <- app_assoc. reflexivity. }
  destruct Hrun as [s' [Hrun Hst']].
  exists s'. split; [exact Hrun|]. split; [exact Hst'|]. split.
  - rewrite List.map_map. apply List.map_ext. intros c. apply lookup_set_field_eq.
  - apply NoDup_map_reflect. intros x y H.
    apply fresh_id_inj in H as [Ht Hr]. now rewrite Ht, Hr.
Qed.

Lemma saveItems_fresh_ids_witness :
  exists (s' : Engine),
    stored s' KEYS_USERS
    = JArr [JObj [("id", JStr "u1"); ("name", JStr "Ani")];
            JObj [("id", JStr "u2"); ("name", JStr "Bud")];
            JObj [("name", JStr "Cici"); ("id", JStr "use_7_abcde")];
            JObj [("name", JStr "Dodi"); ("id", JStr "use_7_abcdf")]] /\
    NoDup ["use_7_abcde"; "use_7_abcdf"].
Proof.
  destruct (saveItems_fresh_ids KEYS_USERS "users"
              [mkCall [("name", JStr "Cici")] 7 "0.abcdeq";
               mkCall [("name", JStr "Dodi")] 7 "0.abcdfq"]
              two_users
              [JObj [("id", JStr "u1"); ("name", JStr "Ani")];
               JObj [("id", JStr "u2"); ("name", JStr "Bud")]])
    as (s' & _ & Hst & _ & Hnd).
  - reflexivity.
  - repeat constructor.
  - exists s'. split; [exact Hst|].
    apply Hnd. simpl. repeat constructor; rewrite list_elem_of_In; simpl; intros H;
      intuition discriminate.
Defined.

End GeneratedIds.

(** ** Subscriptions *)

Section Subscriptions.

Lemma createSubscriber_run (key tableName : string) (cb : callback) (s : Engine)
    (l : list callback) :
  listeners s !! key = Some l ->
  createSubscriber key tableName cb s
  = Ok (Some Pending,
        mkEngine (localStorage s) (apiUrlItem s) (<[key := (l ++ [cb])%list]> (listeners s))
          (effects s ++ [EvCall cb (stored s key);
                         EvGet (api_url s ++ "?action=read&table=" ++ tableName)])).
Proof.
  intros Hl. unfold createSubscriber.
  unfold bind at 1. unfold getListeners. rewrite Hl.
  unfold bind at 1. unfold setListeners.
  unfold bind at 1. rewrite getData_run.
  unfold bind at 1. unfold emit at 1.
  unfold bind at 1. unfold getApiUrl at 1.
  rewrite api_url_or_default_nonempty. cbn [negb].
  unfold bind at 1. rewrite apiFetch_run. unfold ret, logged, api_url. simpl.
  rewrite <- app_assoc. reflexivity.
Qed.

Lemma createSubscriber_then_overwrite (key : string) (cb : callback) (x : json)
    (xs : list json) (s : Engine) :
  stringify <$> localStorage s !! key <> Some (stringify (JArr (x :: xs))) ->
  createSubscriber_then key cb (JArr (x :: xs)) s
  = Ok (tt, mkEngine (<[key := JArr (x :: xs)]> (localStorage s)) (apiUrlItem s) (listeners s)
              (effects s ++ [EvSetItem key (JArr (x :: xs)); EvCall cb (JArr (x :: xs))])).
Proof.
  intros Hne. unfold createSubscriber_then.
  unfold bind at 1. unfold getItem.
  rewrite bool_decide_eq_false_2 by exact Hne. cbn [negb].
  unfold bind, setItem, emit. simpl. rewrite <- app_assoc. reflexivity.
Qed.

Lemma createSubscriber_then_skip (key : string) (cb : callback) (data : json) (s : Engine) :
  (forall x xs, data = JArr (x :: xs) ->
     stringify <$> localStorage s !! key = Some (stringify data)) ->
  createSubscriber_then key cb data s = Ok (tt, s).
Proof.
  intros Hsame. unfold createSubscriber_then.
  destruct data as [| | | |[|x xs]|]; try reflexivity.
  unfold bind at 1. unfold getItem.
  rewrite bool_decide_eq_true_2 by (now apply (Hsame x xs)). reflexivity.
Qed.

Lemma classic_differs (s : Engine) (key : string) (data : json) :
  (exists x xs, data = JArr (x :: xs) /\
     stringify <$> localStorage s !! key <> Some (stringify (JArr (x :: xs)))) \/
  (forall x xs, data = JArr (x :: xs) ->
     stringify <$> localStorage s !! key = Some (stringify data)).
Proof.
  destruct data as [| | | |[|x xs]|]; try solve [right; intros ? ? [=]].
  destruct (decide (stringify <$> localStorage s !! key = Some (stringify (JArr (x :: xs)))))
    as [Heq|Hne].
  - right. intros ? ? _. exact Heq.
  - left. eauto.
Qed.

(** C2.  A subscription calls its callback at once with the stored
    sequence and sends the background fetch.  When the fetch settles, in
    whatever state the service is by then, the callback is called a second
    time exactly when the response is a non-empty array whose serialised
    form differs from the cached one, after the cache was overwritten with
    it; a failed fetch, a response that is not an array, an empty array or
    an unchanged serialisation cause no call and leave the cache as it is. *)
Theorem subscribe_replays_then_reconciles (key tableName : string) (cb : callback)
    (s : Engine) (l : list callback) :
  listeners s !! key = Some l ->
  createSubscriber key tableName cb s
  = Ok (Some Pending,
        mkEngine (localStorage s) (apiUrlItem s) (<[key := (l ++ [cb])%list]> (listeners s))
          (effects s ++ [EvCall cb (stored s key);
                         EvGet (api_url s ++ "?action=read&table=" ++ tableName)])) /\
  forall (s2 : Engine) (response : option json),
    exists (s3 : Engine),
      subscription_settled key cb response s2 = Ok (tt, s3) /\
      (forall data, remote_differs s2 key response data ->
         localStorage s3 = <[key := data]> (localStorage s2) /\
         effects s3 = (effects s2 ++ [EvSetItem key data; EvCall cb data])%list) /\
      ((forall data, ~ remote_differs s2 key response data) ->
         localStorage s3 = localStorage s2 /\
         effects s3
         = (effects s2 ++ match response with
                          | Some _ => []
                          | None => [EvError "Gagal ambil dari spreadsheet:"]
                          end)%list).
Proof.
  intros Hl. split; [now apply createSubscriber_run|].
  intros s2 [data|]; unfold subscription_settled, bind, apiFetch_settled, ret.
  - destruct (classic_differs s2 key data) as [[x [xs [-> Hne]]]|Hsame].
    + rewrite (createSubscriber_then_overwrite key cb x xs s2 Hne).
      eexists. split; [reflexivity|]. split.
      * intros d [[= <-] _]. split; reflexivity.
      * intros Hno. exfalso. apply (Hno (JArr (x :: xs))).
        split; [reflexivity|]. split; [eauto | exact Hne].
    + rewrite (createSubscriber_then_skip key cb data s2 Hsame).
      exists s2. split; [reflexivity|]. split.
      * intros d [[= <-] [[x [xs ->]] Hne]]. exfalso. apply Hne. now apply (Hsame x xs).
      * intros _. now rewrite app_nil_r.
  - unfold emit. simpl.
    eexists. split; [reflexivity|]. split.
    + intros d [Hd _]. discriminate Hd.
    + intros _. split; reflexivity.
Qed.

Lemma subscribe_replays_then_reconciles_witness :
  listeners initial_engine !! KEYS_STUDENTS = Some [] /\
  createSubscriber KEYS_STUDENTS "students" 7 initial_engine
  = Ok (Some Pending,
        mkEngine ∅ None (<[KEYS_STUDENTS := [7]]> initial_listeners)
          [EvCall 7 (JArr []);
           EvGet (DEFAULT_API_URL ++ "?action=read&table=students")]).
Proof.
  split; [reflexivity|].
  apply (subscribe_replays_then_reconciles KEYS_STUDENTS "students" 7 initial_engine []).
  reflexivity.
Defined.

(** C10.  When the fetch of a subscription brings a non-empty array whose
    serialised form differs from the cached one, the continuation writes
    the cache and calls the subscribing callback, and nothing else: no
    other registration of the table is called, although the notifier would
    reach every one of them, as the next local write does. *)
Theorem reconciliation_calls_only_the_subscriber (key : string) (cb : callback)
    (x : json) (xs : list json) (s : Engine) :
  stringify <$> localStorage s !! key <> Some (stringify (JArr (x :: xs))) ->
  exists (s' : Engine),
    createSubscriber_then key cb (JArr (x :: xs)) s = Ok (tt, s') /\
    stored s' key = JArr (x :: xs) /\
    listeners s' = listeners s /\
    effects s'
    = (effects s ++ [EvSetItem key (JArr (x :: xs)); EvCall cb (JArr (x :: xs))])%list /\
    (forall other data, other <> cb ->
       ~ In (EvCall other data) [EvSetItem key (JArr (x :: xs)); EvCall cb (JArr (x :: xs))]) /\
    notify key (JArr (x :: xs)) s
    = Ok (tt, logged s (calls (registered s key) (JArr (x :: xs)))) /\
    forall data,
      setData key data s'
      = Ok (tt, mkEngine (<[key := data]> (localStorage s')) (apiUrlItem s') (listeners s')
                  (effects s' ++ EvSetItem key data :: calls (registered s key) data)).
Proof.
  intros Hne. eexists.
  split; [apply (createSubscriber_then_overwrite key cb x xs s Hne)|].
  split; [apply stored_insert|].
  split; [reflexivity|].
  split; [reflexivity|].
  split.
  { intros other data Hother [H|[H|[]]]; [discriminate H|].
    injection H as H _. now apply Hother. }
  split; [apply notify_run|].
  intros data. rewrite setData_run. reflexivity.
Qed.

Lemma reconciliation_calls_only_the_subscriber_witness :
  exists (s' : Engine),
    createSubscriber_then KEYS_USERS 9 (JArr [JObj [("id", JStr "u3")]])
      (mkEngine (localStorage two_users) None (<[KEYS_USERS := [4; 9]]> initial_listeners) [])
    = Ok (tt, s') /\
    effects s'
    = [EvSetItem KEYS_USERS (JArr [JObj [("id", JStr "u3")]]);
       EvCall 9 (JArr [JObj [("id", JStr "u3")]])].
Proof.
  destruct (reconciliation_calls_only_the_subscriber KEYS_USERS 9
              (JObj [("id", JStr "u3")]) []
              (mkEngine (localStorage two_users) None
                 (<[KEYS_USERS := [4; 9]]> initial_listeners) []))
    as (s' & Hrun & _ & _ & Hev & _).
  - vm_compute. discriminate.
  - exists s'. split; [exact Hrun | exact Hev].
Defined.

(** The function [subscribeSettings] returns filters the settings channel
    the same way. *)
Lemma unsubscribeSettings_unfold (cb : callback) (s : Engine) :
  unsubscribeSettings cb s = unsubscribe KEYS_SETTINGS cb s.
Proof. reflexivity. Qed.

(** C8, counterexample.  Subscribe the same callback twice and call one of
    the two unsubscribe functions: both registrations are gone, not just
    the one the function was created for. *)
Lemma unsubscribe_removes_twin_registration :
  exists (s1 s2 : Engine),
    (subscribeStudents 7 ;; subscribeStudents 7)%engine initial_engine
    = Ok (Some Pending, s1) /\
    registered s1 KEYS_STUDENTS = [7; 7] /\
    unsubscribe KEYS_STUDENTS 7 s1 = Ok (tt, s2) /\
    registered s2 KEYS_STUDENTS = [] /\
    registered s2 KEYS_STUDENTS <> [7].
Proof.
  eexists. eexists.
  split; [vm_compute; reflexivity|].
  split; [reflexivity|].
  split; [vm_compute; reflexivity|].
  split; [reflexivity | discriminate].
Qed.

Lemma filter_other_callback (cb other : callback) (l : list callback) :
  other <> cb ->
  List.filter (Nat.eqb other) (List.filter (fun c => negb (Nat.eqb c cb)) l)
  = List.filter (Nat.eqb other) l.
Proof.
  intros Hother. induction l as [|c l IH]; simpl; [reflexivity|].
  destruct (Nat.eqb_spec c cb) as [->|Hc]; simpl.
  - destruct (Nat.eqb_spec other cb); [contradiction | apply IH].
  - destruct (Nat.eqb other c); [f_equal|]; apply IH.
Qed.

(** C8, amended.  The unsubscribe function of a subscription removes every
    registration of its callback from the table's registry, and nothing
    else: the registrations of all other callbacks, made before or after,
    stay in their order and are the ones later notifications call; the
    other tables, the cache and the effect log are untouched. *)
Theorem unsubscribe_removes_callback (key : string) (cb : callback) (s : Engine)
    (l : list callback) :
  listeners s !! key = Some l ->
  exists (s' : Engine),
    unsubscribe key cb s = Ok (tt, s') /\
    registered s' key = List.filter (fun c => negb (Nat.eqb c cb)) l /\
    ~ In cb (registered s' key) /\
    (forall other, other <> cb ->
       List.filter (Nat.eqb other) (registered s' key) = List.filter (Nat.eqb other) l) /\
    (forall key', key' <> key -> listeners s' !! key' = listeners s !! key') /\
    localStorage s' = localStorage s /\
    effects s' = effects s /\
    forall data,
      notify key data s'
      = Ok (tt, logged s' (calls (List.filter (fun c => negb (Nat.eqb c cb)) l) data)).
Proof.
  intros Hl. eexists.
  split.
  { unfold unsubscribe, bind, getListeners. rewrite Hl. reflexivity. }
  assert (Hreg : forall ls u ev,
            registered (mkEngine ls u
                          (<[key := List.filter (fun c => negb (Nat.eqb c cb)) l]> (listeners s))
                          ev) key
            = List.filter (fun c => negb (Nat.eqb c cb)) l).
  { intros. unfold registered. simpl. now rewrite lookup_insert_eq. }
  split; [apply Hreg|].
  split.
  { rewrite Hreg. intros Hin. apply List.filter_In in Hin as [_ Hin].
    now rewrite Nat.eqb_refl in Hin. }
  split.
  { intros other Hother. rewrite Hreg. now apply filter_other_callback. }
  split; [intros key' Hk; simpl; now apply lookup_insert_ne|].
  split; [reflexivity|].
  split; [reflexivity|].
  intros data. rewrite notify_run, Hreg. reflexivity.
Qed.

Lemma unsubscribe_removes_callback_witness :
  exists (s' : Engine),
    unsubscribe KEYS_USERS 4
      (mkEngine ∅ None (<[KEYS_USERS := [4; 9; 4; 5]]> initial_listeners) [])
    = Ok (tt, s') /\
    registered s' KEYS_USERS = [9; 5].
Proof.
  destruct (unsubscribe_removes_callback KEYS_USERS 4
              (mkEngine ∅ None (<[KEYS_USERS := [4; 9; 4; 5]]> initial_listeners) [])
              [4; 9; 4; 5])
    as (s' & Hrun & Hreg & _).
  - reflexivity.
  - exists s'. split; [exact Hrun | exact Hreg].
Defined.

End Subscriptions.

(** ** Bulk import *)

Section BulkImport.

Lemma bulk_loop_run (prepared : list json) (ok : nat -> bool) (k : nat) (s : Engine) :
  bulk_loop prepared ok k s = Ok (tt, logged s (bulk_requests (api_url s) prepared ok k)).
Proof.
  revert k s. induction prepared as [|p rest IH]; intros k s; simpl.
  - unfold ret. now rewrite logged_nil.
  - unfold bind at 1. unfold await_apiRequest. unfold bind at 1.
    rewrite apiRequest_run. unfold apiRequest_settled.
    destruct (ok k); unfold ret, emit; rewrite IH; unfold logged, api_url; simpl;
      rewrite <- !app_assoc; reflexivity.
Qed.

(** The loop sends one request per prepared record, in their order. *)
Lemma bulk_requests_posts (url : string) (prepared : list json) (ok : nat -> bool) (k : nat) :
  List.filter is_post (bulk_requests url prepared ok k)
  = map (fun p => EvPost url (request_body Create "students" p)) prepared.
Proof.
  revert k. induction prepared as [|p rest IH]; intros k; simpl; [reflexivity|].
  f_equal. destruct (ok k); simpl; apply IH.
Qed.

Lemma bulk_requests_no_write (url : string) (prepared : list json) (ok : nat -> bool) (k : nat)
    (e : event) :
  In e (bulk_requests url prepared ok k) -> is_post e = true \/ exists msg, e = EvError msg.
Proof.
  revert k. induction prepared as [|p rest IH]; intros k; simpl; [contradiction|].
  intros [<-|H]; [now left|].
  apply List.in_app_or in H as [H|H]; [|now apply (IH (S k))].
  destruct (ok k); [contradiction|]. destruct H as [<-|[]]. right. eauto.
Qed.

Lemma bulk_ids_NoDup (newStudents : list record) (now : nat -> Z) (rnd : nat -> string) :
  NoDup (imap (fun i _ => bulk_id (now i) i (rnd i)) newStudents).
Proof.
  apply NoDup_alt. intros i j id Hi Hj.
  rewrite list_lookup_imap in Hi, Hj.
  destruct (newStudents !! i); [|discriminate Hi].
  destruct (newStudents !! j); [|discriminate Hj].
  simpl in Hi, Hj. injection Hi as <-. injection Hj as Hj.
  symmetry. apply (bulk_id_inj (now j) (now i) j i (rnd j) (rnd i)).
  unfold bulk_id. simpl. now f_equal.
Qed.

(** C9.  [bulkImportStudents] gives the record at index [i] the id
    [std_<clock>_<i>_<random>], ids that are pairwise distinct, appends the
    prepared records after the stored ones in one write announced by one
    notification, and then sends one create request per record, in order. *)
Theorem bulkImportStudents_batch (newStudents : list record) (now : nat -> Z)
    (rnd : nat -> string) (ok : nat -> bool) (s : Engine) (old : list json) :
  stored s KEYS_STUDENTS = JArr old ->
  exists (s' : Engine) (requests : list event),
    let prepared := prepare newStudents now rnd in
    let combined := JArr (old ++ prepared) in
    bulkImportStudents newStudents now rnd ok s = Ok (tt, s') /\
    stored s' KEYS_STUDENTS = combined /\
    length prepared = length newStudents /\
    (forall i r, newStudents !! i = Some r ->
       prepared !! i = Some (JObj (set_field "id" (JStr (bulk_id (now i) i (rnd i))) r))) /\
    NoDup (imap (fun i _ => bulk_id (now i) i (rnd i)) newStudents) /\
    effects s'
    = (effects s ++ EvSetItem KEYS_STUDENTS combined
         :: calls (registered s KEYS_STUDENTS) combined ++ requests)%list /\
    (forall e, In e requests -> is_post e = true \/ exists msg, e = EvError msg) /\
    List.filter is_post requests
    = map (fun p => EvPost (api_url s) (request_body Create "students" p)) prepared /\
    length (List.filter is_post requests) = length newStudents.
Proof.
  intros Hst.
  exists (mkEngine
            (<[KEYS_STUDENTS := JArr (old ++ prepare newStudents now rnd)]> (localStorage s))
            (apiUrlItem s) (listeners s)
            (effects s ++ EvSetItem KEYS_STUDENTS (JArr (old ++ prepare newStudents now rnd))
               :: calls (registered s KEYS_STUDENTS) (JArr (old ++ prepare newStudents now rnd))
               ++ bulk_requests (api_url s) (prepare newStudents now rnd) ok 0)).
  exists (bulk_requests (api_url s) (prepare newStudents now rnd) ok 0).
  cbv zeta.
  assert (Hlen : length (prepare newStudents now rnd) = length newStudents)
    by apply length_imap.
  split.
  { unfold bulkImportStudents. unfold bind at 1. rewrite getData_run, Hst.
    unfold bind at 1. simpl. unfold bind at 1. rewrite setData_run.
    rewrite bulk_loop_run. unfold logged, api_url. simpl.
    rewrite <- !app_assoc. reflexivity. }
  split; [apply stored_insert|].
  split; [exact Hlen|].
  split.
  { intros i r Hi. unfold prepare. rewrite list_lookup_imap, Hi. reflexivity. }
  split; [apply bulk_ids_NoDup|].
  split; [reflexivity|].
  split; [apply bulk_requests_no_write|].
  split; [apply bulk_requests_posts|].
  now rewrite bulk_requests_posts, List.length_map.
Qed.

Lemma bulkImportStudents_batch_witness :
  exists (s' : Engine),
    bulkImportStudents [[("name", JStr "A")]; [("name", JStr "B")]]
      (fun _ => 5%Z) (fun _ => "0.abcdefg") (fun _ => true) initial_engine = Ok (tt, s') /\
    stored s' KEYS_STUDENTS
    = JArr [JObj [("name", JStr "A"); ("id", JStr "std_5_0_abcd")];
            JObj [("name", JStr "B"); ("id", JStr "std_5_1_abcd")]].
Proof.
  destruct (bulkImportStudents_batch [[("name", JStr "A")]; [("name", JStr "B")]]
              (fun _ => 5%Z) (fun _ => "0.abcdefg") (fun _ => true) initial_engine [])
    as (s' & requests & Hrun & Hst & _).
  - reflexivity.
  - exists s'. split; [exact Hrun | exact Hst].
Defined.

End BulkImport.

(** ** Further properties of saving and deleting *)

Section TablesMore.

Lemma exn_is_TypeError (e : exn) : e = TypeError.
Proof. now destruct e. Qed.

Lemma strict_eq_true (a b : option json) : strict_eq a b = true -> a = b.
Proof.
  destruct a as [[]|], b as [[]|]; simpl; try discriminate; intros H; try reflexivity.
  - apply Bool.eqb_prop in H. now subst.
  - apply Z.eqb_eq in H. now subst.
  - apply String.eqb_eq in H. now subst.
Qed.

Lemma findIndex_none (id : option json) (l : list json) :
  Forall is_record l ->
  (forall x, In x l -> has_id id x = false) ->
  Js.findIndex (id_equals id) l = Ok None.
Proof.
  induction 1 as [|x l Hx Hl IH]; simpl; intros Hno; [reflexivity|].
  rewrite (id_equals_record id x Hx), (Hno x) by auto.
  rewrite IH by auto. reflexivity.
Qed.

Lemma saveItem_append_run (key table : string) (item : record) (now : Z) (rnd : string)
    (s : Engine) (l : list json) :
  stored s key = JArr l ->
  truthy (lookup_field "id" item) = true ->
  Js.findIndex (id_equals (lookup_field "id" item)) l = Ok None ->
  saveItem key table item now rnd s
  = Ok (item,
        mkEngine (<[key := JArr (l ++ [JObj item])]> (localStorage s))
          (apiUrlItem s) (listeners s)
          ((effects s ++ EvSetItem key (JArr (l ++ [JObj item]))
              :: calls (registered s key) (JArr (l ++ [JObj item])))
             ++ [EvPost (api_url s) (request_body Create table (JObj item))])).
Proof.
  intros Hst Hid Efi.
  unfold saveItem. unfold bind at 1. rewrite getData_run, Hid, Hst.
  unfold bind at 1. simpl. unfold bind at 1. unfold lift at 1. rewrite Efi.
  unfold bind at 1. rewrite setData_run.
  unfold bind at 1. rewrite apiRequest_run. unfold ret. reflexivity.
Qed.

(** X1.  A record whose id is truthy but carried by no stored record is
    appended as it is, with the id it came with, and mirrored as a create. *)
Theorem saveItem_appends_unknown_id (key table : string) (item : record) (now : Z)
    (rnd : string) (s : Engine) (l : list json) :
  stored s key = JArr l ->
  Forall is_record l ->
  truthy (lookup_field "id" item) = true ->
  (forall x, In x l -> has_id (lookup_field "id" item) x = false) ->
  exists (s' : Engine),
    saveItem key table item now rnd s = Ok (item, s') /\
    stored s' key = JArr (l ++ [JObj item]) /\
    effects s'
    = (effects s ++ EvSetItem key (JArr (l ++ [JObj item]))
         :: calls (registered s key) (JArr (l ++ [JObj item]))
         ++ [EvPost (api_url s) (request_body Create table (JObj item))])%list.
Proof.
  intros Hst Hrec Hid Hno.
  eexists. split.
  - apply (saveItem_append_run key table item now rnd s l Hst Hid).
    now apply findIndex_none.
  - split; [apply stored_insert|]. simpl. rewrite <- app_assoc. reflexivity.
Qed.

Lemma saveItem_appends_unknown_id_witness :
  exists (s' : Engine),
    saveItem KEYS_USERS "users" [("id", JStr "u9"); ("name", JStr "Eko")] 0 "0.abc" two_users
    = Ok ([("id", JStr "u9"); ("name", JStr "Eko")], s') /\
    stored s' KEYS_USERS
    = JArr [JObj [("id", JStr "u1"); ("name", JStr "Ani")];
            JObj [("id", JStr "u2"); ("name", JStr "Bud")];
            JObj [("id", JStr "u9"); ("name", JStr "Eko")]].
Proof.
  destruct (saveItem_appends_unknown_id KEYS_USERS "users"
              [("id", JStr "u9"); ("name", JStr "Eko")] 0 "0.abc" two_users
              [JObj [("id", JStr "u1"); ("name", JStr "Ani")];
               JObj [("id", JStr "u2"); ("name", JStr "Bud")]])
    as (s' & Hrun & Hst & _).
  - reflexivity.
  - repeat constructor.
  - reflexivity.
  - simpl. intros x [<-|[<-|[]]]; reflexivity.
  - exists s'. split; [exact Hrun | exact Hst].
Defined.

(** X2.  When the item stored under the key is not an array, as the
    settings item is after [saveSettings], both [saveItem] and [deleteItem]
    raise a [TypeError]. *)
Theorem saveItem_deleteItem_need_array (key table id : string) (item : record) (now : Z)
    (rnd : string) (s : Engine) :
  (forall l, stored s key <> JArr l) ->
  saveItem key table item now rnd s = Throw TypeError /\
  deleteItem key table id s = Throw TypeError.
Proof.
  intros Hna.
  assert (Harr : as_array (stored s key) = Throw TypeError).
  { destruct (stored s key) eqn:E; try reflexivity. now destruct (Hna xs). }
  split.
  - unfold saveItem. unfold bind at 1. rewrite getData_run.
    destruct (truthy (lookup_field "id" item)); unfold bind at 1, lift at 1;
      now rewrite Harr.
  - unfold deleteItem. unfold bind at 1. rewrite getData_run.
    unfold bind at 1, lift at 1. now rewrite Harr.
Qed.

Lemma saveItem_deleteItem_need_array_witness :
  exists (s : Engine),
    saveSettings [("certBackground", JStr "bg")] initial_engine = Ok (tt, s) /\
    saveItem KEYS_SETTINGS "settings" [("id", JStr "global_settings")] 0 "0.abc" s
    = Throw TypeError.
Proof.
  eexists. split; [vm_compute; reflexivity|].
  apply (saveItem_deleteItem_need_array KEYS_SETTINGS "settings" "x").
  intros l. vm_compute. discriminate.
Defined.

Lemma filter_null (id : option json) (l : list json) :
  In JNull l -> Js.filter (id_differs id) l = Throw TypeError.
Proof.
  induction l as [|x l IH]; simpl; [contradiction|].
  intros [->|Hin]; [reflexivity|].
  destruct (id_differs id x) as [b|e]; [|now rewrite (exn_is_TypeError e)].
  now rewrite IH.
Qed.

Lemma findIndex_null (id : option json) (l1 l2 : list json) :
  Forall is_record l1 ->
  (forall x, In x l1 -> has_id id x = false) ->
  Js.findIndex (id_equals id) (l1 ++ JNull :: l2) = Throw TypeError.
Proof.
  induction 1 as [|x l Hx Hl IH]; simpl; intros Hno; [reflexivity|].
  rewrite (id_equals_record id x Hx), (Hno x) by auto.
  rewrite IH by auto. reflexivity.
Qed.

(** X3.  A [null] entry in the stored array makes [deleteItem] raise a
    [TypeError] wherever it stands, and makes [saveItem] raise one for an
    item with a truthy id unless a record before the [null] carries that
    id; an item without id is still appended. *)
Theorem null_entry_breaks_lookups (key table id : string) (item : record) (now : Z)
    (rnd : string) (s : Engine) (l1 l2 : list json) :
  stored s key = JArr (l1 ++ JNull :: l2) ->
  Forall is_record l1 ->
  deleteItem key table id s = Throw TypeError /\
  (truthy (lookup_field "id" item) = true ->
   (forall x, In x l1 -> has_id (lookup_field "id" item) x = false) ->
   saveItem key table item now rnd s = Throw TypeError) /\
  (truthy (lookup_field "id" item) = false ->
   exists (s' : Engine),
     saveItem key table item now rnd s
     = Ok (set_field "id" (JStr (fresh_id table now rnd)) item, s') /\
     stored s' key
     = JArr ((l1 ++ JNull :: l2)
               ++ [JObj (set_field "id" (JStr (fresh_id table now rnd)) item)])).
Proof.
  intros Hst Hrec. split; [|split].
  - unfold deleteItem. unfold bind at 1. rewrite getData_run, Hst.
    unfold bind at 1. simpl. unfold bind at 1, lift at 1.
    rewrite filter_null; [reflexivity|]. apply List.in_or_app. right. now left.
  - intros Hid Hno. unfold saveItem. unfold bind at 1. rewrite getData_run, Hid, Hst.
    unfold bind at 1. simpl. unfold bind at 1, lift at 1.
    now rewrite findIndex_null.
  - intros Hid. eexists. split.
    + apply (saveItem_fresh_run key table item now rnd s _ Hst Hid).
    + apply stored_insert.
Qed.

Lemma null_entry_breaks_lookups_witness :
  deleteItem KEYS_USERS "users" "u1"
    (mkEngine {[ KEYS_USERS := JArr [JObj [("id", JStr "u1")]; JNull] ]} None
       initial_listeners [])
  = Throw TypeError.
Proof.
  apply (null_entry_breaks_lookups KEYS_USERS "users" "u1" [] 0 "0.abc"
           (mkEngine {[ KEYS_USERS := JArr [JObj [("id", JStr "u1")]; JNull] ]} None
              initial_listeners [])
           [JObj [("id", JStr "u1")]] []).
  - reflexivity.
  - repeat constructor.
Defined.

Lemma findIndex_lt (p : json -> result bool) (l : list json) (n : nat) :
  Js.findIndex p l = Ok (Some n) -> n < length l.
Proof.
  revert n. induction l as [|x l IH]; simpl; intros n H; [discriminate H|].
  destruct (p x) as [[|]|e]; [| |discriminate H].
  - injection H as <-. lia.
  - destruct (Js.findIndex p l) as [[m|]|e]; simpl in H; try discriminate H.
    injection H as <-. specialize (IH m eq_refl). lia.
Qed.

Lemma fresh_id_truthy_field (table : string) (now : Z) (rnd : string) (item : record) :
  truthy (lookup_field "id" (set_field "id" (JStr (fresh_id table now rnd)) item)) = true.
Proof. rewrite lookup_set_field_eq. apply fresh_id_truthy. Qed.

Lemma saveItem_ok_inv (key table : string) (item item' : record)
    (now : Z) (rnd : string) (s s' : Engine) :
  saveItem key table item now rnd s = Ok (item', s') ->
  exists (l' : list json) (a : action),
    localStorage s' !! key = Some (JArr l') /\
    In (JObj item') l' /\
    truthy (lookup_field "id" item') = true /\
    (a = Create \/ a = Update) /\
    effects s'
    = (effects s ++ EvSetItem key (JArr l') :: calls (registered s key) (JArr l')
         ++ [EvPost (api_url s) (request_body a table (JObj item'))])%list /\
    (forall key', key' <> key -> localStorage s' !! key' = localStorage s !! key') /\
    listeners s' = listeners s /\
    apiUrlItem s' = apiUrlItem s.
Proof.
  intros Hrun.
  destruct (stored s key) as [| | | |l|] eqn:Hst;
    try (unfold saveItem in Hrun; unfold bind at 1 in Hrun;
         rewrite getData_run, Hst in Hrun;
         destruct (truthy (lookup_field "id" item));
         unfold bind at 1, lift at 1 in Hrun; simpl in Hrun; discriminate Hrun).
  destruct (truthy (lookup_field "id" item)) eqn:Hid.
  - destruct (Js.findIndex (id_equals (lookup_field "id" item)) l) as [[n|]|e] eqn:Efi.
    + rewrite (saveItem_update_run key table item now rnd s l n Hst Hid Efi) in Hrun.
      injection Hrun as <- <-. exists (<[n := JObj item]> l), Update. simpl.
      split; [apply lookup_insert_eq|].
      split.
      { apply list_elem_of_In, list_elem_of_lookup. exists n.
        apply list_lookup_insert_eq. eapply findIndex_lt; eauto. }
      split; [exact Hid|]. split; [now right|].
      split; [now rewrite <- app_assoc|].
      split; [intros key' Hk; now apply lookup_insert_ne|]. split; reflexivity.
    + rewrite (saveItem_append_run key table item now rnd s l Hst Hid Efi) in Hrun.
      injection Hrun as <- <-. exists (l ++ [JObj item])%list, Create. simpl.
      split; [apply lookup_insert_eq|].
      split; [apply List.in_or_app; right; now left|].
      split; [exact Hid|]. split; [now left|].
      split; [now rewrite <- app_assoc|].
      split; [intros key' Hk; now apply lookup_insert_ne|]. split; reflexivity.
    + unfold saveItem in Hrun. unfold bind at 1 in Hrun.
      rewrite getData_run, Hid, Hst in Hrun.
      unfold bind at 1 in Hrun. simpl in Hrun. unfold bind at 1, lift at 1 in Hrun.
      rewrite Efi in Hrun. discriminate Hrun.
  - rewrite (saveItem_fresh_run key table item now rnd s l Hst Hid) in Hrun.
    injection Hrun as <- <-.
    exists (l ++ [JObj (set_field "id" (JStr (fresh_id table now rnd)) item)])%list, Create.
    simpl.
    split; [apply lookup_insert_eq|].
    split; [apply List.in_or_app; right; now left|].
    split; [apply fresh_id_truthy_field|]. split; [now left|].
    split; [now rewrite <- app_assoc|].
    split; [intros key' Hk; now apply lookup_insert_ne|]. split; reflexivity.
Qed.

(** X4.  Whenever [saveItem] returns, the item it hands back carries a
    truthy id and is an entry of the array now stored under the key; that
    array is what every registration of the table was called with, once
    each, right after the write; one create or update request for the item
    was sent; no other key, no registration and no setting was touched. *)
Theorem saveItem_announces_what_it_stores (key table : string) (item item' : record)
    (now : Z) (rnd : string) (s s' : Engine) :
  saveItem key table item now rnd s = Ok (item', s') ->
  exists (l' : list json) (a : action),
    localStorage s' !! key = Some (JArr l') /\
    In (JObj item') l' /\
    truthy (lookup_field "id" item') = true /\
    (a = Create \/ a = Update) /\
    effects s'
    = (effects s ++ EvSetItem key (JArr l') :: calls (registered s key) (JArr l')
         ++ [EvPost (api_url s) (request_body a table (JObj item'))])%list /\
    (forall key', key' <> key -> localStorage s' !! key' = localStorage s !! key') /\
    listeners s' = listeners s /\
    apiUrlItem s' = apiUrlItem s.
Proof. apply saveItem_ok_inv. Qed.

Lemma saveItem_announces_what_it_stores_witness :
  exists (l' : list json),
    In (JObj [("name", JStr "Eko"); ("id", JStr "use_3_abc")]) l'.
Proof.
  destruct (saveItem_announces_what_it_stores KEYS_USERS "users"
              [("name", JStr "Eko")] [("name", JStr "Eko"); ("id", JStr "use_3_abc")]
              3 "0.abc" two_users
              (mkEngine
                 (<[KEYS_USERS := JArr [JObj [("id", JStr "u1"); ("name", JStr "Ani")];
                                        JObj [("id", JStr "u2"); ("name", JStr "Bud")];
                                        JObj [("name", JStr "Eko"); ("id", JStr "use_3_abc")]]]>
                    (localStorage two_users))
                 None initial_listeners
                 [EvSetItem KEYS_USERS
                    (JArr [JObj [("id", JStr "u1"); ("name", JStr "Ani")];
                           JObj [("id", JStr "u2"); ("name", JStr "Bud")];
                           JObj [("name", JStr "Eko"); ("id", JStr "use_3_abc")]]);
                  EvPost DEFAULT_API_URL
                    (request_body Create "users"
                       (JObj [("name", JStr "Eko"); ("id", JStr "use_3_abc")]))]))
    as (l' & a & _ & Hin & _).
  - vm_compute. reflexivity.
  - exists l'. exact Hin.
Defined.

Lemma deleteItem_run (key table id : string) (s : Engine) (l kept : list json) :
  stored s key = JArr l ->
  Js.filter (id_differs (Some (JStr id))) l = Ok kept ->
  deleteItem key table id s
  = Ok (tt,
        mkEngine (<[key := JArr kept]> (localStorage s)) (apiUrlItem s) (listeners s)
          ((effects s ++ EvSetItem key (JArr kept) :: calls (registered s key) (JArr kept))
             ++ [EvPost (api_url s) (request_body Delete table (JObj [("id", JStr id)]))])).
Proof.
  intros Hst Hf.
  unfold deleteItem. unfold bind at 1. rewrite getData_run, Hst.
  unfold bind at 1. simpl. unfold bind at 1. unfold lift at 1. rewrite Hf.
  unfold bind at 1. rewrite setData_run.
  unfold bind at 1. rewrite apiRequest_run. unfold ret. reflexivity.
Qed.

(** Whenever [filter] with [i => i.id !== id] returns, no entry was [null]
    and the entries kept are those not carrying the id. *)
Lemma filter_ok (id : string) (l kept : list json) :
  Js.filter (id_differs (Some (JStr id))) l = Ok kept ->
  ~ In JNull l /\ kept = List.filter (fun x => negb (has_id (Some (JStr id)) x)) l.
Proof.
  revert kept. induction l as [|x l IH]; simpl; intros kept H.
  - injection H as <-. auto.
  - destruct (id_differs (Some (JStr id)) x) as [b|e] eqn:Ex; [|discriminate H].
    destruct (Js.filter (id_differs (Some (JStr id))) l) as [r|e]; [|discriminate H].
    injection H as <-. destruct (IH r eq_refl) as [Hnull ->]. split.
    + intros [->|Hin]; [discriminate Ex | contradiction].
    + destruct x; simpl in Ex; try discriminate Ex; injection Ex as <-; reflexivity.
Qed.

Lemma carriers_filter_out (id : option json) (l : list json) :
  carriers id (List.filter (fun x => negb (has_id id x)) l) = 0.
Proof.
  unfold carriers. induction l as [|x l IH]; simpl; [reflexivity|].
  destruct (has_id id x) eqn:E; simpl; [exact IH|]. now rewrite E.
Qed.

Lemma deleteItem_ok_inv (key table id : string) (s s' : Engine) :
  deleteItem key table id s = Ok (tt, s') ->
  exists (l : list json),
    let kept := List.filter (fun x => negb (has_id (Some (JStr id)) x)) l in
    stored s key = JArr l /\
    ~ In JNull l /\
    localStorage s' !! key = Some (JArr kept) /\
    carriers (Some (JStr id)) kept = 0 /\
    effects s'
    = (effects s ++ EvSetItem key (JArr kept) :: calls (registered s key) (JArr kept)
         ++ [EvPost (api_url s) (request_body Delete table (JObj [("id", JStr id)]))])%list /\
    (forall key', key' <> key -> localStorage s' !! key' = localStorage s !! key') /\
    listeners s' = listeners s.
Proof.
  intros Hrun.
  destruct (stored s key) as [| | | |l|] eqn:Hst;
    try (unfold deleteItem in Hrun; unfold bind at 1 in Hrun;
         rewrite getData_run, Hst in Hrun;
         unfold bind at 1, lift at 1 in Hrun; simpl in Hrun; discriminate Hrun).
  destruct (Js.filter (id_differs (Some (JStr id))) l) as [kept|e] eqn:Hf.
  - rewrite (deleteItem_run key table id s l kept Hst Hf) in Hrun.
    injection Hrun as <-. destruct (filter_ok id l kept Hf) as [Hnull ->].
    exists l. cbv zeta. simpl.
    split; [reflexivity|]. split; [exact Hnull|].
    split; [apply lookup_insert_eq|].
    split; [apply carriers_filter_out|].
    split; [now rewrite <- app_assoc|].
    split; [intros key' Hk; now apply lookup_insert_ne | reflexivity].
  - unfold deleteItem in Hrun. unfold bind at 1 in Hrun.
    rewrite getData_run, Hst in Hrun.
    unfold bind at 1 in Hrun. simpl in Hrun. unfold bind at 1, lift at 1 in Hrun.
    rewrite Hf in Hrun. discriminate Hrun.
Qed.

(** X5.  Whenever [deleteItem] returns, the stored array had no [null]
    entry, the array stored now keeps exactly the entries not carrying the
    id, so none carries it; the table was rewritten and announced and a
    delete request carrying only the id was sent, also when nothing was
    removed; no other key and no registration was touched. *)
Theorem deleteItem_rewrites_and_announces (key table id : string) (s s' : Engine) :
  deleteItem key table id s = Ok (tt, s') ->
  exists (l : list json),
    let kept := List.filter (fun x => negb (has_id (Some (JStr id)) x)) l in
    stored s key = JArr l /\
    ~ In JNull l /\
    localStorage s' !! key = Some (JArr kept) /\
    carriers (Some (JStr id)) kept = 0 /\
    effects s'
    = (effects s ++ EvSetItem key (JArr kept) :: calls (registered s key) (JArr kept)
         ++ [EvPost (api_url s) (request_body Delete table (JObj [("id", JStr id)]))])%list /\
    (forall key', key' <> key -> localStorage s' !! key' = localStorage s !! key') /\
    listeners s' = listeners s.
Proof. apply deleteItem_ok_inv. Qed.

Lemma deleteItem_rewrites_and_announces_witness :
  exists (l : list json), stored initial_engine KEYS_USERS = JArr l.
Proof.
  destruct (deleteItem_rewrites_and_announces KEYS_USERS "users" "nobody" initial_engine
              (mkEngine (<[KEYS_USERS := JArr []]> ∅) None initial_listeners
                 [EvSetItem KEYS_USERS (JArr []);
                  EvPost DEFAULT_API_URL
                    (request_body Delete "users" (JObj [("id", JStr "nobody")]))]))
    as (l & Hst & _).
  - vm_compute. reflexivity.
  - exists l. exact Hst.
Defined.

Lemma Forall_is_record_app (l : list json) (item : record) :
  Forall is_record l -> Forall is_record (l ++ [JObj item]).
Proof.
  intros H. apply Forall_app. split; [exact H|]. constructor; [exact I | constructor].
Qed.

(** X6.  Saving a record without id and then deleting the id it was given
    restores the stored sequence, provided no stored record already
    carried that id. *)
Theorem save_then_delete_restores (key table : string) (item : record) (now : Z)
    (rnd : string) (s : Engine) (l : list json) :
  stored s key = JArr l ->
  Forall is_record l ->
  truthy (lookup_field "id" item) = false ->
  (forall x, In x l -> has_id (Some (JStr (fresh_id table now rnd))) x = false) ->
  exists (item' : record) (s1 s2 : Engine),
    saveItem key table item now rnd s = Ok (item', s1) /\
    lookup_field "id" item' = Some (JStr (fresh_id table now rnd)) /\
    deleteItem key table (fresh_id table now rnd) s1 = Ok (tt, s2) /\
    stored s2 key = JArr l.
Proof.
  intros Hst Hrec Hid Hno.
  eexists. eexists. eexists.
  split; [apply (saveItem_fresh_run key table item now rnd s l Hst Hid)|].
  split; [apply lookup_set_field_eq|].
  split.
  { apply (deleteItem_run key table _ _
             (l ++ [JObj (set_field "id" (JStr (fresh_id table now rnd)) item)])%list);
      [apply stored_insert|].
    apply filter_records. now apply Forall_is_record_app. }
  rewrite stored_insert. f_equal.
  rewrite List.filter_app. simpl. rewrite lookup_set_field_eq. simpl.
  rewrite String.eqb_refl. simpl. rewrite app_nil_r.
  apply filter_all. intros x Hx. now rewrite (Hno x Hx).
Qed.

Lemma save_then_delete_restores_witness :
  exists (s2 : Engine),
    stored s2 KEYS_USERS
    = JArr [JObj [("id", JStr "u1"); ("name", JStr "Ani")];
            JObj [("id", JStr "u2"); ("name", JStr "Bud")]].
Proof.
  destruct (save_then_delete_restores KEYS_USERS "users" [("name", JStr "Eko")] 3 "0.abc"
              two_users
              [JObj [("id", JStr "u1"); ("name", JStr "Ani")];
               JObj [("id", JStr "u2"); ("name", JStr "Bud")]])
    as (item' & s1 & s2 & _ & _ & _ & Hst).
  - reflexivity.
  - repeat constructor.
  - reflexivity.
  - simpl. intros x [<-|[<-|[]]]; reflexivity.
  - exists s2. exact Hst.
Defined.

Lemma findIndex_insert_same (id : option json) (l : list json) (n : nat) (item : record) :
  Forall is_record l ->
  Js.findIndex (id_equals id) l = Ok (Some n) ->
  has_id id (JObj item) = true ->
  Js.findIndex (id_equals id) (<[n := JObj item]> l) = Ok (Some n).
Proof.
  intros Hrec. revert n. induction Hrec as [|x l Hx Hl IH]; intros n H Hitem; simpl in *.
  - discriminate H.
  - rewrite (id_equals_record id x Hx) in H. destruct (has_id id x) eqn:Ex.
    + injection H as <-. simpl. unfold id_equals. simpl.
      simpl in Hitem. now rewrite Hitem.
    + destruct (Js.findIndex (id_equals id) l) as [[m|]|e]; simpl in H; try discriminate H.
      injection H as <-. simpl. rewrite (id_equals_record id x Hx), Ex.
      now rewrite (IH m eq_refl Hitem).
Qed.

Lemma findIndex_after_append (id : option json) (l : list json) (item : record) :
  Js.findIndex (id_equals id) l = Ok None ->
  has_id id (JObj item) = true ->
  Js.findIndex (id_equals id) (l ++ [JObj item]) = Ok (Some (length l)).
Proof.
  intros H Hitem. induction l as [|x l IH]; simpl in *.
  - unfold id_equals. simpl. now rewrite Hitem.
  - destruct (id_equals id x) as [[|]|e]; try discriminate H.
    destruct (Js.findIndex (id_equals id) l) as [[m|]|e]; simpl in H; try discriminate H.
    now rewrite IH.
Qed.

(** X7.  Saving twice the same record, whose id is a truthy string, number
    or boolean, leaves the stored sequence as the first save made it: the
    second save finds the record and rewrites it in place, as an update. *)
Theorem saveItem_twice_is_once (key table : string) (item : record) (now now' : Z)
    (rnd rnd' : string) (s : Engine) (l : list json) :
  stored s key = JArr l ->
  Forall is_record l ->
  truthy (lookup_field "id" item) = true ->
  strict_eq (lookup_field "id" item) (lookup_field "id" item) = true ->
  exists (s1 s2 : Engine),
    saveItem key table item now rnd s = Ok (item, s1) /\
    saveItem key table item now' rnd' s1 = Ok (item, s2) /\
    stored s2 key = stored s1 key /\
    effects s2
    = (effects s1 ++ EvSetItem key (stored s1 key)
         :: calls (registered s1 key) (stored s1 key)
         ++ [EvPost (api_url s1) (request_body Update table (JObj item))])%list.
Proof.
  intros Hst Hrec Hid Hself.
  pose proof (findIndex_first (lookup_field "id" item) l Hrec) as Hfi.
  destruct (Js.findIndex (id_equals (lookup_field "id" item)) l) as [[n|]|e] eqn:Efi;
    [| |contradiction].
  - eexists. eexists.
    split; [exact (saveItem_update_run key table item now rnd s l n Hst Hid Efi)|].
    split.
    { apply (saveItem_update_run key table item now' rnd' _ (<[n := JObj item]> l) n);
        [apply stored_insert | exact Hid |].
      now apply findIndex_insert_same. }
    rewrite !stored_insert, list_insert_insert_eq.
    split; [reflexivity|]. simpl. now rewrite <- app_assoc.
  - eexists. eexists.
    split; [exact (saveItem_append_run key table item now rnd s l Hst Hid Efi)|].
    split.
    { apply (saveItem_update_run key table item now' rnd' _ (l ++ [JObj item])%list
               (length l));
        [apply stored_insert | exact Hid |].
      now apply findIndex_after_append. }
    rewrite !stored_insert.
    replace (length l) with (length l + 0) by lia.
    rewrite insert_app_r. simpl.
    split; [reflexivity|]. now rewrite <- app_assoc.
Qed.

Lemma saveItem_twice_is_once_witness :
  exists (s1 s2 : Engine),
    saveItem KEYS_USERS "users" [("id", JStr "u9"); ("name", JStr "Eko")] 0 "0.abc" two_users
    = Ok ([("id", JStr "u9"); ("name", JStr "Eko")], s1) /\
    stored s2 KEYS_USERS = stored s1 KEYS_USERS.
Proof.
  destruct (saveItem_twice_is_once KEYS_USERS "users"
              [("id", JStr "u9"); ("name", JStr "Eko")] 0 1 "0.abc" "0.def" two_users
              [JObj [("id", JStr "u1"); ("name", JStr "Ani")];
               JObj [("id", JStr "u2"); ("name", JStr "Bud")]])
    as (s1 & s2 & H1 & _ & H2 & _).
  - reflexivity.
  - repeat constructor.
  - reflexivity.
  - reflexivity.
  - exists s1, s2. split; [exact H1 | exact H2].
Defined.

Lemma carriers_app (id : option json) (l1 l2 : list json) :
  carriers id (l1 ++ l2) = carriers id l1 + carriers id l2.
Proof. unfold carriers. now rewrite List.filter_app, List.length_app. Qed.

Lemma carriers_cons (id : option json) (x : json) (l : list json) :
  carriers id (x :: l) = (if has_id id x then 1 else 0) + carriers id l.
Proof. unfold carriers. simpl. now destruct (has_id id x). Qed.

Lemma carriers_none (id : option json) (l : list json) :
  (forall m y, l !! m = Some y -> has_id id y = false) -> carriers id l = 0.
Proof.
  induction l as [|x l IH]; intros H; [reflexivity|].
  rewrite carriers_cons, (H 0 x eq_refl). simpl. apply IH.
  intros m y Hm. apply (H (S m) y Hm).
Qed.

Lemma carriers_filter_le (id : option json) (f : json -> bool) (l : list json) :
  carriers id (List.filter f l) <= carriers id l.
Proof.
  induction l as [|x l IH]; simpl; [lia|].
  destruct (f x); rewrite ?carriers_cons; lia.
Qed.

(** X8.  If every id is carried by at most one record of the stored
    sequence, this is still so after [saveItem] of a record with a truthy
    id, and after [deleteItem]. *)
Theorem ids_stay_unique (key table : string) (item : record) (id : string) (now : Z)
    (rnd : string) (s : Engine) (l : list json) :
  stored s key = JArr l ->
  Forall is_record l ->
  (forall id', carriers id' l <= 1) ->
  (truthy (lookup_field "id" item) = true ->
   exists (s' : Engine) (l' : list json),
     saveItem key table item now rnd s = Ok (item, s') /\
     stored s' key = JArr l' /\
     forall id', carriers id' l' <= 1) /\
  exists (s' : Engine) (l' : list json),
    deleteItem key table id s = Ok (tt, s') /\
    stored s' key = JArr l' /\
    forall id', carriers id' l' <= 1.
Proof.
  intros Hst Hrec Huniq. split.
  - intros Hid.
    pose proof (findIndex_first (lookup_field "id" item) l Hrec) as Hfi.
    destruct (Js.findIndex (id_equals (lookup_field "id" item)) l) as [[n|]|e] eqn:Efi;
      [| |contradiction].
    + destruct Hfi as [[r0 [Hn Hr0]] _].
      exists (mkEngine (<[key := JArr (<[n := JObj item]> l)]> (localStorage s))
                (apiUrlItem s) (listeners s)
                ((effects s ++ EvSetItem key (JArr (<[n := JObj item]> l))
                    :: calls (registered s key) (JArr (<[n := JObj item]> l)))
                   ++ [EvPost (api_url s) (request_body Update table (JObj item))])),
        (<[n := JObj item]> l).
      split; [exact (saveItem_update_run key table item now rnd s l n Hst Hid Efi)|].
      split; [apply stored_insert|].
      intros id'. specialize (Huniq id').
      rewrite <- (take_drop_middle l n r0 Hn) in Huniq.
      rewrite insert_take_drop by (eapply lookup_lt_Some; eauto).
      rewrite carriers_app, carriers_cons in *.
      destruct (has_id id' (JObj item)) eqn:Ei; [|lia].
      simpl in Ei. apply strict_eq_true in Ei. subst id'.
      rewrite Hr0 in Huniq. exact Huniq.
    + exists (mkEngine (<[key := JArr (l ++ [JObj item])]> (localStorage s))
                (apiUrlItem s) (listeners s)
                ((effects s ++ EvSetItem key (JArr (l ++ [JObj item]))
                    :: calls (registered s key) (JArr (l ++ [JObj item])))
                   ++ [EvPost (api_url s) (request_body Create table (JObj item))])),
        (l ++ [JObj item])%list.
      split; [exact (saveItem_append_run key table item now rnd s l Hst Hid Efi)|].
      split; [apply stored_insert|].
      intros id'. rewrite carriers_app, carriers_cons.
      destruct (has_id id' (JObj item)) eqn:Ei.
      * simpl in Ei. apply strict_eq_true in Ei. subst id'.
        rewrite (carriers_none _ l Hfi). reflexivity.
      * specialize (Huniq id'). unfold carriers at 2. simpl. lia.
  - eexists. exists (List.filter (fun x => negb (has_id (Some (JStr id)) x)) l).
    split.
    { apply (deleteItem_run key table id s l); [exact Hst|]. now apply filter_records. }
    split; [apply stored_insert|].
    intros id'. pose proof (carriers_filter_le id'
                              (fun x => negb (has_id (Some (JStr id)) x)) l).
    specialize (Huniq id'). lia.
Qed.

Lemma ids_stay_unique_witness :
  exists (s' : Engine) (l' : list json),
    deleteItem KEYS_USERS "users" "u1" two_users = Ok (tt, s') /\
    stored s' KEYS_USERS = JArr l'.
Proof.
  destruct (ids_stay_unique KEYS_USERS "users" [] "u1" 0 "0.abc" two_users
              [JObj [("id", JStr "u1"); ("name", JStr "Ani")];
               JObj [("id", JStr "u2"); ("name", JStr "Bud")]])
    as (_ & s' & l' & Hrun & Hst & _).
  - reflexivity.
  - repeat constructor.
  - intros id'. rewrite !carriers_cons.
    change (has_id id' (JObj [("id", JStr "u1"); ("name", JStr "Ani")]))
      with (strict_eq (Some (JStr "u1")) id').
    change (has_id id' (JObj [("id", JStr "u2"); ("name", JStr "Bud")]))
      with (strict_eq (Some (JStr "u2")) id').
    destruct (strict_eq (Some (JStr "u1")) id') eqn:E1;
      destruct (strict_eq (Some (JStr "u2")) id') eqn:E2;
      unfold carriers; simpl; try lia.
    apply strict_eq_true in E1. apply strict_eq_true in E2. congruence.
  - exists s', l'. split; [exact Hrun | exact Hst].
Defined.

End TablesMore.

(** ** Further properties of subscriptions *)

Section SubscriptionsMore.

Lemma calls_app (l1 l2 : list callback) (data : json) :
  calls (l1 ++ l2) data = (calls l1 data ++ calls l2 data)%list.
Proof. apply List.map_app. Qed.

Lemma filter_calls (cb : callback) (cbs : list callback) (data : json) :
  List.filter (is_call_of cb) (calls cbs data)
  = calls (List.filter (fun c => Nat.eqb c cb) cbs) data.
Proof.
  induction cbs as [|c cbs IH]; simpl; [reflexivity|].
  destruct (Nat.eqb c cb); simpl; now rewrite IH.
Qed.

Lemma filter_eq_after_filter_ne (cb : callback) (l : list callback) :
  List.filter (fun c => Nat.eqb c cb) (List.filter (fun c => negb (Nat.eqb c cb)) l) = [].
Proof.
  induction l as [|c l IH]; simpl; [reflexivity|].
  destruct (Nat.eqb c cb) eqn:E; simpl; [exact IH|]. now rewrite E.
Qed.

Lemma filter_eq_not_in (cb : callback) (l : list callback) :
  ~ In cb l -> List.filter (fun c => Nat.eqb c cb) l = [].
Proof.
  induction l as [|c l IH]; simpl; intros Hnot; [reflexivity|].
  destruct (Nat.eqb_spec c cb) as [->|Hc].
  - exfalso. apply Hnot. now left.
  - apply IH. intros Hin. apply Hnot. now right.
Qed.

Lemma not_in_filter_ne (cb : callback) (l : list callback) :
  ~ In cb (List.filter (fun c => negb (Nat.eqb c cb)) l).
Proof.
  intros Hin. apply List.filter_In in Hin as [_ Hin].
  now rewrite Nat.eqb_refl in Hin.
Qed.

(** X9.  [createSubscriber] registers its callback and an unsubscribe
    function of the callback leaves no registration of it; [saveItem] and
    [deleteItem], on whatever table, leave the registry as it is.  In every
    state in which a callback is registered for a table, each [saveItem]
    and [deleteItem] on that table that returns calls it with the newly
    stored sequence; in every state in which it is not registered, none
    calls it. *)
Theorem subscriber_hears_writes_until_unsubscribed (key tableName : string) (cb : callback)
    (s : Engine) (l : list callback) :
  listeners s !! key = Some l ->
  (exists (s1 : Engine),
      createSubscriber key tableName cb s = Ok (Some Pending, s1) /\
      In cb (registered s1 key)) /\
  (exists (s' : Engine),
      unsubscribe key cb s = Ok (tt, s') /\
      ~ In cb (registered s' key)) /\
  (forall key' table item item' now rnd st st',
      saveItem key' table item now rnd st = Ok (item', st') ->
      listeners st' = listeners st) /\
  (forall key' table id st st',
      deleteItem key' table id st = Ok (tt, st') ->
      listeners st' = listeners st) /\
  (forall st,
      In cb (registered st key) ->
      (forall table item item' now rnd st',
          saveItem key table item now rnd st = Ok (item', st') ->
          exists evs, effects st' = (effects st ++ evs)%list /\
                      In (EvCall cb (stored st' key)) evs) /\
      (forall table id st',
          deleteItem key table id st = Ok (tt, st') ->
          exists evs, effects st' = (effects st ++ evs)%list /\
                      In (EvCall cb (stored st' key)) evs)) /\
  (forall st,
      ~ In cb (registered st key) ->
      (forall table item item' now rnd st',
          saveItem key table item now rnd st = Ok (item', st') ->
          exists evs, effects st' = (effects st ++ evs)%list /\
                      List.filter (is_call_of cb) evs = []) /\
      (forall table id st',
          deleteItem key table id st = Ok (tt, st') ->
          exists evs, effects st' = (effects st ++ evs)%list /\
                      List.filter (is_call_of cb) evs = [])).
Proof.
  intros Hl.
  split.
  { eexists. split; [apply (createSubscriber_run key tableName cb s l Hl)|].
    unfold registered. simpl. rewrite lookup_insert_eq. simpl.
    apply List.in_or_app. right. now left. }
  split.
  { eexists. split.
    - unfold unsubscribe, bind, getListeners. rewrite Hl. reflexivity.
    - unfold registered. simpl. rewrite lookup_insert_eq. simpl.
      apply not_in_filter_ne. }
  split.
  { intros key' table item item' now rnd st st' Hrun.
    now destruct (saveItem_ok_inv _ _ _ _ _ _ _ _ Hrun)
      as (l' & a & _ & _ & _ & _ & _ & _ & Hli & _). }
  split.
  { intros key' table id st st' Hrun.
    now destruct (deleteItem_ok_inv _ _ _ _ _ Hrun) as (l0 & _ & _ & _ & _ & _ & _ & Hli). }
  split.
  - intros st Hreg. split.
    + intros table item item' now rnd st' Hrun.
      destruct (saveItem_ok_inv _ _ _ _ _ _ _ _ Hrun)
        as (l' & a & Hst & _ & _ & _ & Hev & _).
      eexists. split; [exact Hev|].
      unfold stored. rewrite Hst.
      right. apply List.in_or_app. left.
      apply (List.in_map (fun c => EvCall c (JArr l'))). exact Hreg.
    + intros table id st' Hrun.
      destruct (deleteItem_ok_inv _ _ _ _ _ Hrun) as (l0 & _ & _ & Hst & _ & Hev & _).
      eexists. split; [exact Hev|].
      unfold stored. rewrite Hst.
      right. apply List.in_or_app. left.
      apply (List.in_map
               (fun c => EvCall c
                           (JArr (List.filter (fun x => negb (has_id (Some (JStr id)) x)) l0)))).
      exact Hreg.
  - intros st Hreg. split.
    + intros table item item' now rnd st' Hrun.
      destruct (saveItem_ok_inv _ _ _ _ _ _ _ _ Hrun)
        as (l' & a & _ & _ & _ & _ & Hev & _).
      eexists. split; [exact Hev|].
      simpl. rewrite List.filter_app, filter_calls, (filter_eq_not_in cb _ Hreg).
      reflexivity.
    + intros table id st' Hrun.
      destruct (deleteItem_ok_inv _ _ _ _ _ Hrun) as (l0 & _ & _ & _ & _ & Hev & _).
      eexists. split; [exact Hev|].
      simpl. rewrite List.filter_app, filter_calls, (filter_eq_not_in cb _ Hreg).
      reflexivity.
Qed.

Lemma subscriber_hears_writes_until_unsubscribed_witness :
  exists (s1 : Engine),
    createSubscriber KEYS_USERS "users" 7 two_users = Ok (Some Pending, s1) /\
    In 7 (registered s1 KEYS_USERS).
Proof.
  destruct (subscriber_hears_writes_until_unsubscribed KEYS_USERS "users" 7 two_users [])
    as ((s1 & Hrun & Hin) & _).
  - reflexivity.
  - exists s1. split; [exact Hrun | exact Hin].
Defined.


(** X11.  Subscribing a callback that was not registered for the table and
    then running its unsubscribe function puts the registry back as it
    was. *)
Theorem subscribe_unsubscribe_restores_registry (key tableName : string) (cb : callback)
    (s : Engine) (l : list callback) :
  listeners s !! key = Some l ->
  ~ In cb l ->
  exists (s1 s2 : Engine),
    createSubscriber key tableName cb s = Ok (Some Pending, s1) /\
    unsubscribe key cb s1 = Ok (tt, s2) /\
    listeners s2 = listeners s /\
    localStorage s2 = localStorage s.
Proof.
  intros Hl Hnot.
  eexists. eexists.
  split; [apply (createSubscriber_run key tableName cb s l Hl)|].
  split.
  { unfold unsubscribe, bind, getListeners. simpl. rewrite lookup_insert_eq. reflexivity. }
  simpl. split; [|reflexivity].
  rewrite insert_insert_eq. apply insert_id. rewrite Hl. f_equal.
  rewrite List.filter_app. simpl. rewrite Nat.eqb_refl. simpl. rewrite app_nil_r.
  clear Hl. induction l as [|c l IH]; simpl; [reflexivity|].
  destruct (Nat.eqb_spec c cb) as [->|Hc]; simpl.
  - exfalso. apply Hnot. now left.
  - f_equal. apply IH. intros Hin. apply Hnot. now right.
Qed.

Lemma subscribe_unsubscribe_restores_registry_witness :
  exists (s2 : Engine), listeners s2 = listeners two_users.
Proof.
  destruct (subscribe_unsubscribe_restores_registry KEYS_USERS "users" 7 two_users [])
    as (s1 & s2 & _ & _ & H & _).
  - reflexivity.
  - intros [].
  - exists s2. exact H.
Defined.

End SubscriptionsMore.

(** ** Synchronisation with the remote and the API URL *)

Section Sync.

Lemma await_apiFetch_run (table : string) (response : option json) (s : Engine) :
  await_apiFetch table response s
  = Ok (match response with
        | Some data => data
        | None => JNull
        end,
        logged s (EvGet (api_url s ++ "?action=read&table=" ++ table)
                    :: match response with
                       | Some _ => []
                       | None => [EvError "Gagal ambil dari spreadsheet:"]
                       end)).
Proof.
  unfold await_apiFetch, bind. rewrite apiFetch_run.
  destruct response as [data|]; simpl; unfold bind, ret, emit, logged; simpl.
  - reflexivity.
  - now rewrite <- app_assoc.
Qed.

Lemma sync_loop_run (tables : list (string * string)) (response : nat -> option json)
    (k : nat) (s : Engine) :
  sync_loop tables response k s = Ok (tt, sync_run tables response k s).
Proof.
  revert k s. induction tables as [|[key table] rest IH]; intros k s; simpl.
  - reflexivity.
  - unfold bind at 1. rewrite await_apiFetch_run.
    assert (Hstep :
      (match (match response k with Some data => data | None => JNull end) with
       | JArr (_ :: _) =>
           (setItem key (match response k with Some data => data | None => JNull end) ;;
            notify key (match response k with Some data => data | None => JNull end))%engine
       | _ => ret tt
       end)
        (logged s (EvGet (api_url s ++ "?action=read&table=" ++ table)
                     :: match response k with
                        | Some _ => []
                        | None => [EvError "Gagal ambil dari spreadsheet:"]
                        end))
      = Ok (tt, sync_step key table (response k) s)).
    { unfold sync_step.
      destruct (response k) as [[| | | |[|x xs]|]|]; try reflexivity.
      unfold bind, setItem. rewrite notify_run.
      unfold logged, registered, api_url. simpl. rewrite <- !app_assoc. reflexivity. }
    unfold bind at 1. rewrite Hstep. apply IH.
Qed.

Lemma sync_step_frame (key table : string) (r : option json) (s : Engine) :
  listeners (sync_step key table r s) = listeners s /\
  apiUrlItem (sync_step key table r s) = apiUrlItem s /\
  effects (sync_step key table r s)
  = (effects s ++ sync_step_events (api_url s) (registered s key) key table r)%list /\
  forall key',
    localStorage (sync_step key table r s) !! key'
    = if decide (key' = key) then
        match accepted r with
        | Some d => Some d
        | None => localStorage s !! key
        end
      else localStorage s !! key'.
Proof.
  unfold sync_step, sync_step_events, accepted.
  destruct r as [[| | | |[|x xs]|]|]; simpl;
    (split; [reflexivity|]; split; [reflexivity|]; split; [reflexivity|]);
    intros key'; destruct (decide (key' = key)) as [->|Hne]; try reflexivity.
  - apply lookup_insert_eq.
  - now apply lookup_insert_ne.
Qed.

Lemma sync_run_frame (tables : list (string * string)) (response : nat -> option json)
    (k : nat) (s : Engine) :
  listeners (sync_run tables response k s) = listeners s /\
  apiUrlItem (sync_run tables response k s) = apiUrlItem s /\
  effects (sync_run tables response k s)
  = (effects s ++ sync_events (api_url s) (registered s) tables response k)%list.
Proof.
  revert k s. induction tables as [|[key table] rest IH]; intros k s; simpl.
  - now rewrite app_nil_r.
  - destruct (sync_step_frame key table (response k) s) as (Hl & Hu & He & _).
    destruct (IH (S k) (sync_step key table (response k) s)) as (Hl' & Hu' & He').
    rewrite Hl', Hu', He', Hl, Hu, He.
    split; [reflexivity|]. split; [reflexivity|].
    unfold api_url, registered. rewrite Hl, Hu. now rewrite <- app_assoc.
Qed.

Lemma sync_run_other_key (tables : list (string * string)) (response : nat -> option json)
    (k : nat) (s : Engine) (key' : string) :
  ~ In key' (map fst tables) ->
  localStorage (sync_run tables response k s) !! key' = localStorage s !! key'.
Proof.
  revert k s. induction tables as [|[key table] rest IH]; intros k s Hnot; simpl.
  - reflexivity.
  - rewrite IH by (intros H; apply Hnot; now right).
    destruct (sync_step_frame key table (response k) s) as (_ & _ & _ & Hls).
    rewrite Hls. destruct (decide (key' = key)) as [->|]; [|reflexivity].
    exfalso. apply Hnot. now left.
Qed.

Lemma sync_run_key (tables : list (string * string)) (response : nat -> option json)
    (k i : nat) (s : Engine) (key table : string) :
  List.NoDup (map fst tables) ->
  tables !! i = Some (key, table) ->
  localStorage (sync_run tables response k s) !! key
  = match accepted (response (k + i)) with
    | Some d => Some d
    | None => localStorage s !! key
    end.
Proof.
  revert k i s. induction tables as [|[key0 table0] rest IH]; intros k i s Hnd Hi.
  - destruct i; discriminate Hi.
  - simpl in Hnd. inversion Hnd as [|? ? Hnotin Hnd']; subst.
    destruct i as [|i]; simpl in Hi; simpl.
    + injection Hi as -> ->. rewrite sync_run_other_key by exact Hnotin.
      destruct (sync_step_frame key table (response k) s) as (_ & _ & _ & Hls).
      rewrite Hls, Nat.add_0_r. now destruct (decide (key = key)).
    + rewrite (IH (S k) i _ Hnd' Hi).
      replace (S k + i) with (k + S i) by lia.
      destruct (accepted (response (k + S i))); [reflexivity|].
      destruct (sync_step_frame key0 table0 (response k) s) as (_ & _ & _ & Hls).
      rewrite Hls. destruct (decide (key = key0)) as [->|]; [|reflexivity].
      exfalso. apply Hnotin. apply List.in_map_iff. exists (key0, table).
      split; [reflexivity|]. apply list_elem_of_In, list_elem_of_lookup. eauto.
Qed.

Lemma sync_tables_NoDup : List.NoDup (map fst sync_tables).
Proof.
  simpl. repeat constructor; simpl; intros H; intuition discriminate.
Qed.

(** X12.  [syncAllFromCloud] takes over a table exactly when its response
    is a non-empty array, which then replaces the stored item; a failed
    fetch, an empty array or any other response leaves the stored item as
    it was.  Keys other than the five tables, the registry and the stored
    API URL are never touched. *)
Theorem syncAllFromCloud_takes_non_empty_snapshots (response : nat -> option json)
    (s : Engine) :
  exists (s' : Engine),
    syncAllFromCloud response s = Ok (tt, s') /\
    (forall i key table,
        sync_tables !! i = Some (key, table) ->
        localStorage s' !! key
        = match response i with
          | Some (JArr (x :: xs)) => Some (JArr (x :: xs))
          | _ => localStorage s !! key
          end) /\
    (forall key, ~ In key (map fst sync_tables) ->
                 localStorage s' !! key = localStorage s !! key) /\
    listeners s' = listeners s /\
    apiUrlItem s' = apiUrlItem s.
Proof.
  exists (sync_run sync_tables response 0 s).
  split; [apply sync_loop_run|].
  destruct (sync_run_frame sync_tables response 0 s) as (Hl & Hu & _).
  split.
  { intros i key table Hi.
    rewrite (sync_run_key sync_tables response 0 i s key table sync_tables_NoDup Hi).
    simpl. unfold accepted. now destruct (response i) as [[| | | |[|x xs]|]|]. }
  split; [intros key Hk; now apply sync_run_other_key|].
  split; assumption.
Qed.

Lemma filter_get_calls (cbs : list callback) (data : json) :
  List.filter is_get (calls cbs data) = [].
Proof. induction cbs as [|c cbs IH]; simpl; [reflexivity | exact IH]. Qed.

Lemma filter_post_calls (cbs : list callback) (data : json) :
  List.filter is_post (calls cbs data) = [].
Proof. induction cbs as [|c cbs IH]; simpl; [reflexivity | exact IH]. Qed.

Lemma sync_events_gets (url : string) (regs : string -> list callback)
    (tables : list (string * string)) (response : nat -> option json) (k : nat) :
  List.filter is_get (sync_events url regs tables response k)
  = map (fun t => EvGet (url ++ "?action=read&table=" ++ snd t)) tables.
Proof.
  revert k. induction tables as [|[key table] rest IH]; intros k; simpl; [reflexivity|].
  f_equal. rewrite List.filter_app, IH.
  destruct (response k) as [[| | | |[|x xs]|]|]; simpl; try reflexivity.
  now rewrite filter_get_calls.
Qed.

Lemma sync_events_posts (url : string) (regs : string -> list callback)
    (tables : list (string * string)) (response : nat -> option json) (k : nat) :
  List.filter is_post (sync_events url regs tables response k) = [].
Proof.
  revert k. induction tables as [|[key table] rest IH]; intros k; simpl; [reflexivity|].
  rewrite List.filter_app, IH.
  destruct (response k) as [[| | | |[|x xs]|]|]; simpl; try reflexivity.
  now rewrite filter_post_calls.
Qed.

Lemma in_calls (cb : callback) (d d' : json) (cbs : list callback) :
  In (EvCall cb d) (calls cbs d') <-> d = d' /\ In cb cbs.
Proof.
  unfold calls. rewrite List.in_map_iff. split.
  - intros [c [[= -> ->] Hc]]. auto.
  - intros [-> Hc]. exists cb. auto.
Qed.

Lemma sync_events_calls (url : string) (regs : string -> list callback)
    (tables : list (string * string)) (response : nat -> option json) (k : nat)
    (cb : callback) (d : json) :
  In (EvCall cb d) (sync_events url regs tables response k) <->
  exists i key table,
    tables !! i = Some (key, table) /\
    accepted (response (k + i)) = Some d /\
    In cb (regs key).
Proof.
  revert k. induction tables as [|[key table] rest IH]; intros k; cbn [sync_events].
  - split; [contradiction|]. intros (i & ? & ? & Hi & _). destruct i; discriminate Hi.
  - rewrite List.in_app_iff, IH. unfold sync_step_events. split.
    + intros [[H|H]|(i & key' & table' & Hi & Hacc & Hcb)].
      * discriminate H.
      * exists 0, key, table. rewrite Nat.add_0_r.
        unfold accepted. destruct (response k) as [[| | | |[|x xs]|]|]; simpl in H;
          try contradiction; try (destruct H as [H|[]]; discriminate H).
        destruct H as [H|H]; [discriminate H|].
        apply in_calls in H as [-> Hcb]. auto.
      * exists (S i), key', table'. replace (k + S i) with (S k + i) by lia. auto.
    + intros ([|i] & key' & table' & Hi & Hacc & Hcb); simpl in Hi.
      * injection Hi as <- <-. left. right. rewrite Nat.add_0_r in Hacc.
        unfold accepted in Hacc.
        destruct (response k) as [[| | | |[|x xs]|]|]; try discriminate Hacc.
        injection Hacc as <-. right. apply in_calls. auto.
      * right. exists i, key', table'. replace (S k + i) with (k + S i) by lia. auto.
Qed.

(** X13.  A run of [syncAllFromCloud] asks for the five tables in the
    order users, students, materials, submissions, settings, at the
    endpoint in use, and sends no write request; a callback is called with
    a snapshot exactly when it is registered for a table whose response was
    that non-empty array. *)
Theorem syncAllFromCloud_requests_and_calls (response : nat -> option json) (s : Engine) :
  exists (s' : Engine) (evs : list event),
    syncAllFromCloud response s = Ok (tt, s') /\
    effects s' = (effects s ++ evs)%list /\
    List.filter is_get evs
    = map (fun table => EvGet (api_url s ++ "?action=read&table=" ++ table))
        ["users"; "students"; "materials"; "submissions"; "settings"] /\
    List.filter is_post evs = [] /\
    forall cb d,
      In (EvCall cb d) evs <->
      exists i key table,
        sync_tables !! i = Some (key, table) /\
        response i = Some d /\
        (exists x xs, d = JArr (x :: xs)) /\
        In cb (registered s key).
Proof.
  exists (sync_run sync_tables response 0 s),
    (sync_events (api_url s) (registered s) sync_tables response 0).
  split; [apply sync_loop_run|].
  destruct (sync_run_frame sync_tables response 0 s) as (_ & _ & He).
  split; [exact He|].
  split; [apply sync_events_gets|].
  split; [apply sync_events_posts|].
  intros cb d. rewrite sync_events_calls. simpl.
  split.
  - intros (i & key & table & Hi & Hacc & Hcb). exists i, key, table.
    unfold accepted in Hacc.
    destruct (response i) as [[| | | |[|x xs]|]|]; try discriminate Hacc.
    injection Hacc as <-. eauto 6.
  - intros (i & key & table & Hi & Hr & [x [xs ->]] & Hin). exists i, key, table.
    unfold accepted. rewrite Hr. auto.
Qed.


End Sync.

(** ** Settings, the administrator and the session *)

Section SettingsAndSession.

Lemma subscribeSettings_run (DEFAULT_CERT_BG : json) (cb : callback) (s : Engine)
    (l : list callback) :
  listeners s !! KEYS_SETTINGS = Some l ->
  subscribeSettings DEFAULT_CERT_BG cb s
  = Ok (Some Pending,
        mkEngine (localStorage s) (apiUrlItem s)
          (<[KEYS_SETTINGS := (l ++ [cb])%list]> (listeners s))
          (effects s
             ++ [EvCall cb (match localStorage s !! KEYS_SETTINGS with
                            | Some parsed => parsed
                            | None => JObj [("certBackground", DEFAULT_CERT_BG)]
                            end);
                 EvGet (api_url s ++ "?action=read&table=settings")])).
Proof.
  intros Hl. unfold subscribeSettings.
  unfold bind at 1. unfold getListeners. rewrite Hl.
  unfold bind at 1. unfold setListeners.
  unfold bind at 1. unfold getItem.
  unfold bind at 1. unfold emit at 1.
  unfold bind at 1. unfold getApiUrl at 1.
  rewrite api_url_or_default_nonempty. cbn [negb].
  unfold bind at 1. rewrite apiFetch_run. unfold ret, logged, api_url. simpl.
  rewrite <- app_assoc. reflexivity.
Qed.

(** X15.  [subscribeSettings] first calls back with what is stored: the
    default [{certBackground: DEFAULT_CERT_BG}] when nothing is, and, after
    a [saveSettings], the saved payload with its id forced to
    ['global_settings']. *)
Theorem subscribeSettings_reads_back_saved_settings (DEFAULT_CERT_BG : json)
    (settings : record) (cb : callback) (s : Engine) (l : list callback) :
  listeners s !! KEYS_SETTINGS = Some l ->
  (localStorage s !! KEYS_SETTINGS = None ->
   exists (s1 : Engine),
     subscribeSettings DEFAULT_CERT_BG cb s = Ok (Some Pending, s1) /\
     effects s1
     = (effects s ++ [EvCall cb (JObj [("certBackground", DEFAULT_CERT_BG)]);
                      EvGet (api_url s ++ "?action=read&table=settings")])%list) /\
  exists (s1 s2 : Engine),
    saveSettings settings s = Ok (tt, s1) /\
    subscribeSettings DEFAULT_CERT_BG cb s1 = Ok (Some Pending, s2) /\
    effects s2
    = (effects s1
         ++ [EvCall cb (JObj (set_field "id" (JStr "global_settings") settings));
             EvGet (api_url s ++ "?action=read&table=settings")])%list.
Proof.
  intros Hl. split.
  - intros Hnone. eexists. split; [apply (subscribeSettings_run _ _ _ l Hl)|].
    simpl. now rewrite Hnone.
  - eexists. eexists. split; [apply saveSettings_run|].
    split; [apply (subscribeSettings_run _ _ _ l); exact Hl|].
    simpl. now rewrite lookup_insert_eq.
Qed.

Lemma subscribeSettings_reads_back_saved_settings_witness :
  exists (s1 s2 : Engine),
    saveSettings [("certBackground", JStr "bg.png")] initial_engine = Ok (tt, s1) /\
    subscribeSettings (JStr "default.png") 3 s1 = Ok (Some Pending, s2).
Proof.
  destruct (subscribeSettings_reads_back_saved_settings (JStr "default.png")
              [("certBackground", JStr "bg.png")] 3 initial_engine [])
    as (_ & s1 & s2 & H1 & H2 & _).
  - reflexivity.
  - exists s1, s2. split; [exact H1 | exact H2].
Defined.

(** X16.  When [syncAllFromCloud] takes over the settings table, the
    settings item becomes the fetched array, and a later
    [subscribeSettings] calls back with that whole array, not with one
    settings record. *)
Theorem synced_settings_are_read_back_as_array (DEFAULT_CERT_BG : json)
    (response : nat -> option json) (cb : callback) (s : Engine) (l : list callback)
    (x : json) (xs : list json) :
  listeners s !! KEYS_SETTINGS = Some l ->
  response 4 = Some (JArr (x :: xs)) ->
  exists (s1 s2 : Engine),
    syncAllFromCloud response s = Ok (tt, s1) /\
    localStorage s1 !! KEYS_SETTINGS = Some (JArr (x :: xs)) /\
    subscribeSettings DEFAULT_CERT_BG cb s1 = Ok (Some Pending, s2) /\
    effects s2
    = (effects s1 ++ [EvCall cb (JArr (x :: xs));
                      EvGet (api_url s ++ "?action=read&table=settings")])%list.
Proof.
  intros Hl Hr.
  destruct (sync_run_frame sync_tables response 0 s) as (Hli & Hu & _).
  assert (Hst : localStorage (sync_run sync_tables response 0 s) !! KEYS_SETTINGS
                = Some (JArr (x :: xs))).
  { rewrite (sync_run_key sync_tables response 0 4 s KEYS_SETTINGS "settings"
               sync_tables_NoDup eq_refl).
    simpl. now rewrite Hr. }
  exists (sync_run sync_tables response 0 s). eexists.
  split; [apply sync_loop_run|]. split; [exact Hst|].
  split; [apply (subscribeSettings_run _ _ _ l); now rewrite Hli|].
  cbn [effects]. rewrite Hst. unfold api_url. now rewrite Hu.
Qed.

Lemma synced_settings_are_read_back_as_array_witness :
  exists (s1 : Engine),
    localStorage s1 !! KEYS_SETTINGS = Some (JArr [JObj [("id", JStr "global_settings")]]).
Proof.
  destruct (synced_settings_are_read_back_as_array JNull
              (fun i => if Nat.eqb i 4 then Some (JArr [JObj [("id", JStr "global_settings")]])
                        else None)
              3 initial_engine [] (JObj [("id", JStr "global_settings")]) [])
    as (s1 & s2 & _ & H & _).
  - reflexivity.
  - reflexivity.
  - exists s1. exact H.
Defined.

(** X17.  [initAdminUser] creates the administrator, with id ['admin-1'],
    only in an empty users table; on a table that holds a record it does
    nothing at all, so a second call never adds a second administrator. *)
Theorem initAdminUser_only_on_empty_table (INITIAL_ADMIN other : record) (now now' : Z)
    (rnd rnd' : string) (s : Engine) (l : list json) :
  stored s KEYS_USERS = JArr l ->
  exists (s1 : Engine),
    initAdminUser INITIAL_ADMIN now rnd s = Ok (tt, s1) /\
    (l = [] ->
     stored s1 KEYS_USERS = JArr [JObj (set_field "id" (JStr "admin-1") INITIAL_ADMIN)] /\
     effects s1
     = (effects s
          ++ EvSetItem KEYS_USERS (JArr [JObj (set_field "id" (JStr "admin-1") INITIAL_ADMIN)])
          :: calls (registered s KEYS_USERS)
               (JArr [JObj (set_field "id" (JStr "admin-1") INITIAL_ADMIN)])
          ++ [EvPost (api_url s)
                (request_body Create "users"
                   (JObj (set_field "id" (JStr "admin-1") INITIAL_ADMIN)))])%list) /\
    (l <> [] -> s1 = s) /\
    initAdminUser other now' rnd' s1 = Ok (tt, s1).
Proof.
  intros Hst.
  assert (Hnoop : forall ADMIN t r s0 x l0, stored s0 KEYS_USERS = JArr (x :: l0) ->
                    initAdminUser ADMIN t r s0 = Ok (tt, s0)).
  { intros ADMIN t r s0 x l0 H0. unfold initAdminUser. unfold bind at 1.
    rewrite getData_run, H0. reflexivity. }
  destruct l as [|x l].
  - eexists. split.
    { unfold initAdminUser. unfold bind at 1. rewrite getData_run, Hst.
      unfold bind at 1. simpl. unfold bind at 1.
      rewrite (saveItem_append_run KEYS_USERS "users" _ now rnd s [] Hst).
      + unfold ret. reflexivity.
      + now rewrite lookup_set_field_eq.
      + reflexivity. }
    split.
    { intros _. split; [apply stored_insert|]. simpl. now rewrite <- app_assoc. }
    split; [intros H; now destruct H|].
    eapply Hnoop. apply stored_insert.
  - exists s. split; [now apply (Hnoop _ _ _ _ x l)|].
    split; [intros H; discriminate H|].
    split; [reflexivity | now apply (Hnoop _ _ _ _ x l)].
Qed.

Lemma initAdminUser_only_on_empty_table_witness :
  exists (s1 : Engine),
    initAdminUser [("username", JStr "admin")] 0 "0.abc" initial_engine = Ok (tt, s1).
Proof.
  destruct (initAdminUser_only_on_empty_table [("username", JStr "admin")] [] 0 1
              "0.abc" "0.def" initial_engine [])
    as (s1 & H & _).
  - reflexivity.
  - exists s1. exact H.
Defined.

(** X18.  The session is read back as it was set and is [null] after
    [clearSession]; setting or clearing it writes no table, calls no
    listener and sends no request. *)
Theorem session_round_trip (user : record) (s : Engine) :
  exists (s1 s2 : Engine),
    setSession user s = Ok (tt, s1) /\
    getSession s1 = Ok (JObj user, s1) /\
    clearSession s1 = Ok (tt, s2) /\
    getSession s2 = Ok (JNull, s2) /\
    effects s2 = (effects s ++ [EvSetItem KEYS_SESSION (JObj user)])%list /\
    listeners s2 = listeners s /\
    (forall key, key <> KEYS_SESSION ->
                 localStorage s1 !! key = localStorage s !! key /\
                 localStorage s2 !! key = localStorage s !! key).
Proof.
  eexists. eexists.
  split; [reflexivity|].
  split.
  { unfold getSession, bind, getItem. simpl. now rewrite lookup_insert_eq. }
  split; [reflexivity|].
  split.
  { unfold getSession, bind, getItem. simpl. now rewrite lookup_delete_eq. }
  split; [reflexivity|]. split; [reflexivity|].
  intros key Hk. simpl. split.
  - now apply lookup_insert_ne.
  - rewrite lookup_delete_ne by auto. now apply lookup_insert_ne.
Qed.

End SettingsAndSession.

(** ** Editing imported students, and the attachment list of the student view *)

Section Editing.

Lemma prepare_records (newStudents : list record) (now : nat -> Z) (rnd : nat -> string) :
  Forall is_record (prepare newStudents now rnd).
Proof.
  apply Forall_forall. intros x Hx.
  apply list_elem_of_lookup in Hx as [i Hi].
  unfold prepare in Hi. rewrite list_lookup_imap in Hi.
  destruct (newStudents !! i); [|discriminate Hi].
  simpl in Hi. injection Hi as <-. exact I.
Qed.

Lemma bulk_id_truthy (now : Z) (i : nat) (rnd : string) :
  truthy (Some (JStr (bulk_id now i rnd))) = true.
Proof. reflexivity. Qed.

(** X19.  A student record that carries the id [bulkImportStudents] gave to
    an imported record is afterwards saved in place: [saveStudent] finds
    the id, the table keeps its length and holds the saved record, and the
    remote gets an update. *)
Theorem imported_student_is_edited_in_place (newStudents : list record) (now : nat -> Z)
    (rnd : nat -> string) (ok : nat -> bool) (s : Engine) (old : list json)
    (i : nat) (r edited : record) (now' : Z) (rnd' : string) :
  stored s KEYS_STUDENTS = JArr old ->
  Forall is_record old ->
  newStudents !! i = Some r ->
  lookup_field "id" edited = Some (JStr (bulk_id (now i) i (rnd i))) ->
  exists (s1 s2 : Engine) (l2 : list json) (evs : list event),
    bulkImportStudents newStudents now rnd ok s = Ok (tt, s1) /\
    saveStudent edited now' rnd' s1 = Ok (edited, s2) /\
    stored s2 KEYS_STUDENTS = JArr l2 /\
    length l2 = length old + length newStudents /\
    In (JObj edited) l2 /\
    effects s2
    = (effects s1 ++ evs
         ++ [EvPost (api_url s) (request_body Update "students" (JObj edited))])%list.
Proof.
  intros Hst Hold Hi Hid.
  set (prepared := prepare newStudents now rnd).
  set (s1 := mkEngine
               (<[KEYS_STUDENTS := JArr (old ++ prepared)]> (localStorage s))
               (apiUrlItem s) (listeners s)
               ((effects s ++ EvSetItem KEYS_STUDENTS (JArr (old ++ prepared))
                   :: calls (registered s KEYS_STUDENTS) (JArr (old ++ prepared)))
                  ++ bulk_requests (api_url s) prepared ok 0)).
  assert (Hrun1 : bulkImportStudents newStudents now rnd ok s = Ok (tt, s1)).
  { unfold bulkImportStudents. unfold bind at 1. rewrite getData_run, Hst.
    unfold bind at 1. simpl. unfold bind at 1. rewrite setData_run.
    rewrite bulk_loop_run. unfold logged, api_url. reflexivity. }
  assert (Hst1 : stored s1 KEYS_STUDENTS = JArr (old ++ prepared)) by apply stored_insert.
  assert (Hrec : Forall is_record (old ++ prepared)).
  { apply Forall_app. split; [exact Hold | apply prepare_records]. }
  assert (Htruthy : truthy (lookup_field "id" edited) = true) by now rewrite Hid.
  assert (Hcarrier : (old ++ prepared)%list !! (length old + i)
                     = Some (JObj (set_field "id" (JStr (bulk_id (now i) i (rnd i))) r))).
  { rewrite lookup_app_r by lia. replace (length old + i - length old) with i by lia.
    unfold prepared, prepare. rewrite list_lookup_imap, Hi. reflexivity. }
  pose proof (findIndex_first (lookup_field "id" edited) _ Hrec) as Hfi.
  destruct (Js.findIndex (id_equals (lookup_field "id" edited)) (old ++ prepared)%list)
    as [[n|]|e] eqn:Efi; [| |contradiction].
  - exists s1. eexists. exists (<[n := JObj edited]> (old ++ prepared)%list). eexists.
    split; [exact Hrun1|].
    split; [exact (saveItem_update_run KEYS_STUDENTS "students" edited now' rnd' s1 _ n
                     Hst1 Htruthy Efi)|].
    split; [apply stored_insert|].
    split.
    { rewrite length_insert, List.length_app. f_equal. apply length_imap. }
    split.
    { apply list_elem_of_In, list_elem_of_lookup. exists n.
      apply list_lookup_insert_eq. eapply findIndex_lt; eauto. }
    cbn [effects]. rewrite <- app_assoc. reflexivity.
  - exfalso. specialize (Hfi _ _ Hcarrier). simpl in Hfi.
    rewrite lookup_set_field_eq, Hid in Hfi. simpl in Hfi.
    rewrite String.eqb_refl in Hfi. discriminate Hfi.
Qed.

Lemma imported_student_is_edited_in_place_witness :
  exists (s2 : Engine) (l2 : list json),
    stored s2 KEYS_STUDENTS = JArr l2 /\ length l2 = 0 + 2.
Proof.
  destruct (imported_student_is_edited_in_place
              [[("name", JStr "A")]; [("name", JStr "B")]]
              (fun _ => 5%Z) (fun _ => "0.abcdefg") (fun _ => true) initial_engine []
              1 [("name", JStr "B")] [("name", JStr "Bee"); ("id", JStr "std_5_1_abcd")]
              6 "0.zzz")
    as (s1 & s2 & l2 & evs & _ & _ & Hst & Hlen & _).
  - reflexivity.
  - constructor.
  - reflexivity.
  - reflexivity.
  - exists s2, l2. split; [exact Hst | exact Hlen].
Defined.

Lemma filter_index_out {A : Type} (index : Z) (k : nat) (l : list A) :
  (index < Z.of_nat k \/ Z.of_nat (k + length l) <= index)%Z ->
  filter_index (fun i => negb (Z.eqb (Z.of_nat i) index)) k l = l.
Proof.
  revert k. induction l as [|x l IH]; intros k H; simpl; [reflexivity|].
  destruct (Z.eqb_spec (Z.of_nat k) index) as [E|E]; simpl in *.
  - lia.
  - f_equal. apply IH. lia.
Qed.

Lemma filter_index_in {A : Type} (k i : nat) (l : list A) :
  i < length l ->
  filter_index (fun j => negb (Z.eqb (Z.of_nat j) (Z.of_nat (k + i)))) k l
  = (take i l ++ drop (S i) l)%list.
Proof.
  revert k i. induction l as [|x l IH]; intros k i H; simpl in H; [lia|].
  simpl. destruct i as [|i].
  - rewrite Nat.add_0_r, Z.eqb_refl. simpl.
    apply filter_index_out. lia.
  - destruct (Z.eqb_spec (Z.of_nat k) (Z.of_nat (k + S i))) as [E|E]; [lia|].
    simpl. f_equal. replace (k + S i) with (S k + i) by lia. apply IH. lia.
Qed.

(** X20.  [removeTaskAttachment] drops the attachment at the given position
    and keeps the others in order, so the list gets one shorter; an index
    that is negative or past the end leaves the list as it is. *)
Theorem removeTaskAttachment_drops_one_position {A : Type} (index : Z) (prev : list A) :
  (forall i, index = Z.of_nat i -> i < length prev ->
     removeTaskAttachment index prev = (take i prev ++ drop (S i) prev)%list /\
     S (length (removeTaskAttachment index prev)) = length prev) /\
  ((index < 0 \/ Z.of_nat (length prev) <= index)%Z ->
   removeTaskAttachment index prev = prev).
Proof.
  split.
  - intros i -> Hi. unfold removeTaskAttachment.
    pose proof (filter_index_in 0 i prev Hi) as H. cbn [Nat.add] in H.
    rewrite H. split; [reflexivity|].
    rewrite List.length_app, length_take, length_drop. lia.
  - intros H. unfold removeTaskAttachment. apply filter_index_out. simpl. lia.
Qed.

Lemma removeTaskAttachment_drops_one_position_witness :
  removeTaskAttachment 1 ["a"; "b"; "c"] = ["a"; "c"].
Proof.
  destruct (removeTaskAttachment_drops_one_position 1 ["a"; "b"; "c"]) as [H _].
  destruct (H 1) as [H1 _]; [reflexivity | simpl; lia | exact H1].
Defined.

End Editing.

(** ** What remote failures cannot do *)

Section RemoteFailures.

(** X21.  Whatever URL is stored, the gateway is never switched off:
    [hasApiUrl] is true, and every [apiRequest] and [apiFetch] issues one
    request, to the stored URL when it is non-empty and to the built-in
    default otherwise, and is left pending on it. *)
Theorem gateway_is_never_disabled (s : Engine) (a : action) (table : string) (data : json) :
  hasApiUrl s = Ok (true, s) /\
  api_url s = match apiUrlItem s with
              | Some (String c u) => String c u
              | _ => DEFAULT_API_URL
              end /\
  apiRequest a table data s
  = Ok (Pending, logged s [EvPost (api_url s) (request_body a table data)]) /\
  apiFetch table s
  = Ok (Pending, logged s [EvGet (api_url s ++ "?action=read&table=" ++ table)]).
Proof.
  split.
  { unfold hasApiUrl, bind, getApiUrl. now rewrite api_url_or_default_nonempty. }
  split.
  { unfold api_url, api_url_or_default. now destruct (apiUrlItem s) as [[|c u]|]. }
  split; [apply apiRequest_run | apply apiFetch_run].
Qed.

Lemma bulk_requests_but_errors (url : string) (prepared : list json) (ok : nat -> bool)
    (k : nat) :
  List.filter (fun e => match e with EvError _ => false | _ => true end)
    (bulk_requests url prepared ok k)
  = map (fun p => EvPost url (request_body Create "students" p)) prepared.
Proof.
  revert k. induction prepared as [|p rest IH]; intros k; simpl; [reflexivity|].
  f_equal. destruct (ok k); simpl; apply IH.
Qed.

(** X22.  The outcomes of the requests of a bulk import change nothing but
    the errors logged: whichever requests fail, the same sequence is
    stored, the same callbacks are called and the same requests are sent. *)
Theorem bulkImportStudents_ignores_request_outcomes (newStudents : list record)
    (now : nat -> Z) (rnd : nat -> string) (ok ok' : nat -> bool) (s : Engine)
    (old : list json) :
  stored s KEYS_STUDENTS = JArr old ->
  exists (s1 s1' : Engine) (evs evs' : list event),
    bulkImportStudents newStudents now rnd ok s = Ok (tt, s1) /\
    bulkImportStudents newStudents now rnd ok' s = Ok (tt, s1') /\
    localStorage s1 = localStorage s1' /\
    listeners s1 = listeners s1' /\
    effects s1 = (effects s ++ evs)%list /\
    effects s1' = (effects s ++ evs')%list /\
    List.filter (fun e => match e with EvError _ => false | _ => true end) evs
    = List.filter (fun e => match e with EvError _ => false | _ => true end) evs'.
Proof.
  intros Hst.
  assert (Hrun : forall o,
            bulkImportStudents newStudents now rnd o s
            = Ok (tt, mkEngine
                        (<[KEYS_STUDENTS := JArr (old ++ prepare newStudents now rnd)]>
                           (localStorage s))
                        (apiUrlItem s) (listeners s)
                        (effects s
                           ++ (EvSetItem KEYS_STUDENTS (JArr (old ++ prepare newStudents now rnd))
                                 :: calls (registered s KEYS_STUDENTS)
                                      (JArr (old ++ prepare newStudents now rnd)))
                           ++ bulk_requests (api_url s) (prepare newStudents now rnd) o 0))).
  { intros o. unfold bulkImportStudents. unfold bind at 1. rewrite getData_run, Hst.
    unfold bind at 1. simpl. unfold bind at 1. rewrite setData_run.
    rewrite bulk_loop_run. unfold logged, api_url. simpl.
    rewrite <- !app_assoc. reflexivity. }
  eexists. eexists. eexists. eexists.
  split; [apply (Hrun ok)|]. split; [apply (Hrun ok')|].
  split; [reflexivity|]. split; [reflexivity|].
  split; [reflexivity|]. split; [reflexivity|].
  rewrite !List.filter_app, !bulk_requests_but_errors. reflexivity.
Qed.

Lemma bulkImportStudents_ignores_request_outcomes_witness :
  exists (s1 s1' : Engine),
    bulkImportStudents [[("name", JStr "A")]] (fun _ => 5%Z) (fun _ => "0.abcdefg")
      (fun _ => true) initial_engine = Ok (tt, s1) /\
    localStorage s1 = localStorage s1'.
Proof.
  destruct (bulkImportStudents_ignores_request_outcomes [[("name", JStr "A")]]
              (fun _ => 5%Z) (fun _ => "0.abcdefg") (fun _ => true) (fun _ => false)
              initial_engine [])
    as (s1 & s1' & evs & evs' & H1 & _ & H2 & _).
  - reflexivity.
  - exists s1, s1'. split; [exact H1 | exact H2].
Defined.

End RemoteFailures.
